(** * user-profile-manager: cache store, API client, coordinator and QR codec

    A shallow embedding of the client-side caching layer
    ([src/utils/apiCache.ts]), the profile API client ([src/lib/api.ts]),
    the Express back end ([server.ts]), the pagination coordinator
    ([src/App.tsx]) and the QR envelope codec
    ([src/components/QRCodeModal.tsx]), followed by the properties
    established about them.

    Conventions of the embedding.
    - A JavaScript string is a [string]: a sequence of 8-bit characters,
      that is the Latin-1 range on which [btoa] is defined.
    - A JavaScript number is a [Z]; the code only handles page numbers,
      HTTP statuses, millisecond clocks and durations.
    - A JavaScript value that travels as JSON is a [JSValue].
    - [Date.now()] is an input of the operation that reads it, one
      argument per read, in program order.
    - A promise is the value it settles to; a rejection or a thrown
      exception is the [Throw] outcome of [Completion]. *)

From Stdlib Require Import ZArith String Ascii List Bool Lia.
From stdpp Require Import base option strings list gmap pretty.

Set Warnings "-register-all".
Local Open Scope Z_scope.

(** ** JavaScript values and the built-ins the sources call *)

Module JS.

Inductive JSValue : Type :=
| JUndefined
| JNull
| JBool (b : bool)
| JNum (n : Z)
| JStr (s : string)
| JArr (items : list JSValue)
| JObj (fields : list (string * JSValue)).

(** Outcome of an expression or call that may throw. *)
Inductive Completion (A : Type) : Type :=
| Normal (a : A)
| Throw (message : string).
Arguments Normal {A} a.
Arguments Throw {A} message.

Definition bind {A B} (c : Completion A) (k : A -> Completion B) : Completion B :=
  match c with
  | Normal a => k a
  | Throw m => Throw m
  end.

(** [ToBoolean]: what [if (v)], [!v] and [v || w] test. *)
Definition truthy (v : JSValue) : bool :=
  match v with
  | JUndefined | JNull => false
  | JBool b => b
  | JNum n => negb (n =? 0)
  | JStr s => negb (String.eqb s "")
  | JArr _ | JObj _ => true
  end.

(** [v === 'text'] against a string literal. *)
Definition is_string (text : string) (v : JSValue) : bool :=
  match v with
  | JStr s => String.eqb s text
  | _ => false
  end.

(** [a || b] *)
Definition or_else (a b : JSValue) : JSValue := if truthy a then a else b.

(** Own-property lookup in an object literal or a parsed JSON object;
    an earlier binding shadows a later one with the same name. *)
Fixpoint lookup_field (name : string) (fields : list (string * JSValue)) : option JSValue :=
  match fields with
  | [] => None
  | (k, v) :: rest => if String.eqb k name then Some v else lookup_field name rest
  end.

(** ['name' in v] for an object [v]. *)
Definition has_field (name : string) (v : JSValue) : bool :=
  match v with
  | JObj fields => bool_decide (is_Some (lookup_field name fields))
  | _ => false
  end.

Definition type_error_null (name : string) : string :=
  "Cannot read properties of null (reading '" +:+ name +:+ "')".
Definition type_error_undefined (name : string) : string :=
  "Cannot read properties of undefined (reading '" +:+ name +:+ "')".

(** [v.name] for the data property names the sources read ([type],
    [data], [error], [success], [pagination] and the profile fields):
    none of them is a built-in property of strings, arrays, numbers or
    booleans, so on those the read yields [undefined]; on [null] and
    [undefined] it throws a TypeError. *)
Definition get_prop (v : JSValue) (name : string) : Completion JSValue :=
  match v with
  | JUndefined => Throw (type_error_undefined name)
  | JNull => Throw (type_error_null name)
  | JObj fields => Normal (default JUndefined (lookup_field name fields))
  | _ => Normal JUndefined
  end.

(** *** Strings *)

(** [s.includes(pattern)] on strings. *)
Fixpoint includes (pattern s : string) : bool :=
  String.prefix pattern s ||
  match s with
  | EmptyString => false
  | String _ rest => includes pattern rest
  end.

Definition is_alnum (c : ascii) : bool :=
  let n := N_of_ascii c in
  ((48 <=? n) && (n <=? 57) || (65 <=? n) && (n <=? 90) || (97 <=? n) && (n <=? 122))%N.

Fixpoint filter_chars (keep : ascii -> bool) (s : string) : string :=
  match s with
  | EmptyString => EmptyString
  | String c rest =>
      if keep c then String c (filter_chars keep rest) else filter_chars keep rest
  end.

(** [s.replace(/[^a-zA-Z0-9]/g, '')] *)
Definition strip_non_alnum (s : string) : string := filter_chars is_alnum s.

(** [s.split('T')[0]]: the text before the first ['T'] (all of [s] when
    there is none). *)
Fixpoint before_T (s : string) : string :=
  match s with
  | EmptyString => EmptyString
  | String c rest => if Ascii.eqb c "T" then EmptyString else String c (before_T rest)
  end.

Definition is_space (c : ascii) : bool :=
  let n := N_of_ascii c in
  ((9 <=? n) && (n <=? 13) || (n =? 32) || (n =? 160))%N.

Fixpoint trim_start (s : string) : string :=
  match s with
  | EmptyString => EmptyString
  | String c rest => if is_space c then trim_start rest else s
  end.

(** Drops trailing white space. *)
Fixpoint trim_end (s : string) : string :=
  match s with
  | EmptyString => EmptyString
  | String c rest =>
      match trim_end rest with
      | EmptyString => if is_space c then EmptyString else String c EmptyString
      | kept => String c kept
      end
  end.

(** [s.trim()] *)
Definition trim (s : string) : string := trim_end (trim_start s).

(** *** [btoa]: base64 of a Latin-1 string *)

Definition b64_char (n : N) : ascii :=
  (if n <? 26 then ascii_of_N (65 + n)
   else if n <? 52 then ascii_of_N (97 + (n - 26))
   else if n <? 62 then ascii_of_N (48 + (n - 52))
   else if n =? 62 then "+"%char
   else "/"%char)%N.

Fixpoint btoa (s : string) : string :=
  match s with
  | EmptyString => EmptyString
  | String a EmptyString =>
      let n := (N_of_ascii a * 65536)%N in
      String (b64_char (n / 262144))
        (String (b64_char ((n / 4096) mod 64)) "==")
  | String a (String b EmptyString) =>
      let n := (N_of_ascii a * 65536 + N_of_ascii b * 256)%N in
      String (b64_char (n / 262144))
        (String (b64_char ((n / 4096) mod 64))
           (String (b64_char ((n / 64) mod 64)) "="))
  | String a (String b (String c rest)) =>
      let n := (N_of_ascii a * 65536 + N_of_ascii b * 256 + N_of_ascii c)%N in
      String (b64_char (n / 262144))
        (String (b64_char ((n / 4096) mod 64))
           (String (b64_char ((n / 64) mod 64))
              (String (b64_char (n mod 64)) (btoa rest))))
  end.

(** *** [JSON.stringify] *)

Definition hex_digit (n : N) : ascii :=
  (if n <? 10 then ascii_of_N (48 + n) else ascii_of_N (97 + (n - 10)))%N.

Definition dquote : ascii := "034"%char.
Definition bslash : ascii := "092"%char.
Definition escape (c : ascii) : string := String bslash (String c EmptyString).

(** One character inside a JSON string literal (QuoteJSONString). *)
Definition quote_char (c : ascii) : string :=
  let n := N_of_ascii c in
  (if n =? 34 then escape dquote
   else if n =? 92 then escape bslash
   else if n =? 8 then escape "b"
   else if n =? 9 then escape "t"
   else if n =? 10 then escape "n"
   else if n =? 12 then escape "f"
   else if n =? 13 then escape "r"
   else if n <? 32 then
     escape "u" +:+ "00" +:+
     String (hex_digit (n / 16)) (String (hex_digit (n mod 16)) EmptyString)
   else String c EmptyString)%N.

Fixpoint quote_chars (s : string) : string :=
  match s with
  | EmptyString => EmptyString
  | String c rest => quote_char c +:+ quote_chars rest
  end.

Definition quote (s : string) : string :=
  String dquote (quote_chars s +:+ String dquote EmptyString).

Fixpoint join_comma (parts : list string) : string :=
  match parts with
  | [] => ""
  | [p] => p
  | p :: rest => p +:+ "," +:+ join_comma rest
  end.

(** [JSON.stringify(v)]; [None] is the [undefined] it returns for
    [undefined].  Inside an array [undefined] prints as [null]; a field
    whose value is [undefined] is left out. *)
Fixpoint stringify (v : JSValue) : option string :=
  match v with
  | JUndefined => None
  | JNull => Some "null"
  | JBool true => Some "true"
  | JBool false => Some "false"
  | JNum n => Some (pretty n)
  | JStr s => Some (quote s)
  | JArr items =>
      Some ("[" +:+
            join_comma
              ((fix elems (l : list JSValue) : list string :=
                  match l with
                  | [] => []
                  | x :: l' => default "null" (stringify x) :: elems l'
                  end) items)
            +:+ "]")
  | JObj fields =>
      Some ("{" +:+
            join_comma
              ((fix members (l : list (string * JSValue)) : list string :=
                  match l with
                  | [] => []
                  | (k, x) :: l' =>
                      match stringify x with
                      | Some t => (quote k +:+ ":" +:+ t) :: members l'
                      | None => members l'
                      end
                  end) fields)
            +:+ "}")
  end.

(** [JSON.parse(JSON.stringify(v))] for a [v] that is not [undefined]:
    the value a reader of the serialised text gets back. *)
Fixpoint reparse (v : JSValue) : JSValue :=
  match v with
  | JUndefined => JNull
  | JArr items => JArr (map reparse items)
  | JObj fields =>
      JObj ((fix members (l : list (string * JSValue)) : list (string * JSValue) :=
               match l with
               | [] => []
               | (k, JUndefined) :: l' => members l'
               | (k, x) :: l' => (k, reparse x) :: members l'
               end) fields)
  | _ => v
  end.

(** [s.toLowerCase()] on the Latin-1 range: the letters [A-Z] and the
    accented capitals U+00C0 to U+00DE, the multiplication sign U+00D7
    apart, move up by 32. *)
Definition lower_char (c : ascii) : ascii :=
  let n := N_of_ascii c in
  (if (65 <=? n) && (n <=? 90) || (192 <=? n) && (n <=? 222) && negb (n =? 215)
   then ascii_of_N (n + 32) else c)%N.

Fixpoint toLowerCase (s : string) : string :=
  match s with
  | EmptyString => EmptyString
  | String c rest => String (lower_char c) (toLowerCase rest)
  end.

(** [s.replace(/\s+/g, '-')]: every maximal run of white space becomes
    one hyphen, written at the last character of the run. *)
Fixpoint replace_space_runs (s : string) : string :=
  match s with
  | EmptyString => EmptyString
  | String c rest =>
      if is_space c then
        match rest with
        | EmptyString => String "-" EmptyString
        | String next _ =>
            if is_space next then replace_space_runs rest
            else String "-" (replace_space_runs rest)
        end
      else String c (replace_space_runs rest)
  end.

(** Whether every character of a string passes a test. *)
Fixpoint all_chars (test : ascii -> bool) (s : string) : bool :=
  match s with
  | EmptyString => true
  | String c rest => test c && all_chars test rest
  end.

(** The characters [toLowerCase] changes. *)
Definition is_capital (c : ascii) : bool :=
  let n := N_of_ascii c in
  ((65 <=? n) && (n <=? 90) || (192 <=? n) && (n <=? 222) && negb (n =? 215))%N.

End JS.
Import JS.


(** ** The cache store ([class APICache], src/utils/apiCache.ts) *)

Module APICache.

Record CacheEntry : Type := mkEntry {
  data : JSValue;
  timestamp : Z;
  ttl : Z  (* time to live in milliseconds *)
}.

(** A JavaScript [Map<string, CacheEntry>]: bindings in insertion order.
    [Map.prototype.set] on a key already present replaces the value and
    keeps the key's place; on a new key it appends. *)
Definition JSMap : Type := list (string * CacheEntry).

Fixpoint map_get (key : string) (m : JSMap) : option CacheEntry :=
  match m with
  | [] => None
  | (k, e) :: rest => if String.eqb k key then Some e else map_get key rest
  end.

Fixpoint map_set (key : string) (e : CacheEntry) (m : JSMap) : JSMap :=
  match m with
  | [] => [(key, e)]
  | (k, x) :: rest =>
      if String.eqb k key then (k, e) :: rest else (k, x) :: map_set key e rest
  end.

Fixpoint map_delete (key : string) (m : JSMap) : JSMap :=
  match m with
  | [] => []
  | (k, x) :: rest =>
      if String.eqb k key then rest else (k, x) :: map_delete key rest
  end.

Definition map_size (m : JSMap) : Z := Z.of_nat (length m).

Definition map_keys (m : JSMap) : list string := map fst m.

(** [m.keys().next().value]: the first key in insertion order,
    [undefined] on an empty map. *)
Definition first_key (m : JSMap) : option string := head (map_keys m).

(** What [localStorage.getItem(key)] holds.  Keys under the reserved
    prefix are written by [set] alone, so a readable item is the JSON
    text of an entry, kept here in parsed form; [Unparsable] is text
    that [JSON.parse] rejects. *)
Inductive StorageItem : Type :=
| EntryText (parsed : CacheEntry)
| Unparsable.

Record State : Type := mkState {
  memoryCache : JSMap;
  localStorage : gmap string StorageItem
}.

(** [new APICache()] in a browser whose storage holds nothing. *)
Definition empty : State := {| memoryCache := []; localStorage := ∅ |}.

Definition DEFAULT_TTL : Z := 5 * 60 * 1000.
Definition MAX_MEMORY_ITEMS : Z := 100.

(** [generateKey(endpoint, params)] *)
Definition generateKey (endpoint : string) (params : option (list (string * JSValue))) : string :=
  let paramString :=
    match params with
    | Some fields => default "" (stringify (JObj fields))
    | None => ""
    end in
  "api_cache_" +:+ strip_non_alnum (btoa (endpoint +:+ paramString)).

(** [isValidEntry(entry)], with [now] the value of [Date.now()]. *)
Definition isValidEntry (now : Z) (entry : CacheEntry) : bool :=
  now - timestamp entry <? ttl entry.

(** [set(endpoint, data, params, ttl)].  [now_mem] and [now_ls] are the
    two [Date.now()] reads, in that order; [accepts] tells whether the
    browser takes the [localStorage.setItem] (it raises, for instance on
    a full quota, otherwise, and the [catch] only logs). *)
Definition set (endpoint : string) (value : JSValue)
    (params : option (list (string * JSValue))) (ttl_arg : option Z)
    (now_mem now_ls : Z) (accepts : bool) (st : State) : State :=
  let ttl := default DEFAULT_TTL ttl_arg in
  let key := generateKey endpoint params in
  let evicted :=
    if MAX_MEMORY_ITEMS <=? map_size (memoryCache st) then
      match first_key (memoryCache st) with
      | Some oldestKey =>
          if truthy (JStr oldestKey) then map_delete oldestKey (memoryCache st)
          else memoryCache st
      | None => memoryCache st
      end
    else memoryCache st in
  let mem := map_set key (mkEntry value now_mem ttl) evicted in
  let ls :=
    match stringify value with
    | Some text =>
        if (Z.of_nat (String.length text) <? 100000) && accepts
        then <[key := EntryText (mkEntry (reparse value) now_ls ttl)]> (localStorage st)
        else localStorage st
    | None => localStorage st  (* [.length] of [undefined] throws, caught *)
    end in
  {| memoryCache := mem; localStorage := ls |}.

(** [get(endpoint, params)]: the value returned ([JNull] for [null]) and
    the store afterwards.  [now_mem] is the clock read by the validity
    test of the memory entry, [now_ls] the one read by the test of the
    parsed storage entry. *)
Definition get (endpoint : string) (params : option (list (string * JSValue)))
    (now_mem now_ls : Z) (st : State) : JSValue * State :=
  let key := generateKey endpoint params in
  let fromStorage :=
    match localStorage st !! key with
    | Some (EntryText parsed) =>
        if isValidEntry now_ls parsed then
          (data parsed,
           {| memoryCache := map_set key parsed (memoryCache st);
              localStorage := localStorage st |})
        else
          (JNull,
           {| memoryCache := memoryCache st;
              localStorage := delete key (localStorage st) |})
    | Some Unparsable => (JNull, st)  (* [JSON.parse] throws, caught *)
    | None => (JNull, st)
    end in
  match map_get key (memoryCache st) with
  | Some memoryEntry =>
      if isValidEntry now_mem memoryEntry then (data memoryEntry, st) else fromStorage
  | None => fromStorage
  end.

(** [invalidate(endpoint, params)] *)
Definition invalidate (endpoint : string) (params : option (list (string * JSValue)))
    (st : State) : State :=
  let key := generateKey endpoint params in
  {| memoryCache := map_delete key (memoryCache st);
     localStorage := delete key (localStorage st) |}.

(** Whether [set] writes the entry to [localStorage] as well: the value
    serialises to fewer than 100000 characters and the browser takes
    the write. *)
Definition persists (value : JSValue) (accepts : bool) : bool :=
  match stringify value with
  | Some text => (Z.of_nat (String.length text) <? 100000) && accepts
  | None => false
  end.

(** One call of [set] with everything it reads. *)
Record SetCall : Type := mkSetCall {
  call_endpoint : string;
  call_value : JSValue;
  call_params : option (list (string * JSValue));
  call_ttl : option Z;
  call_now_mem : Z;
  call_now_ls : Z;
  call_accepts : bool
}.

Definition do_set (c : SetCall) (st : State) : State :=
  set (call_endpoint c) (call_value c) (call_params c) (call_ttl c)
    (call_now_mem c) (call_now_ls c) (call_accepts c) st.

(** A sequence of [set] calls, first call first. *)
Definition run_sets (calls : list SetCall) (st : State) : State :=
  fold_left (fun acc c => do_set c acc) calls st.

(** The key and the memory entry a call writes. *)
Definition call_key (c : SetCall) : string :=
  generateKey (call_endpoint c) (call_params c).
Definition call_entry (c : SetCall) : CacheEntry :=
  mkEntry (call_value c) (call_now_mem c) (default DEFAULT_TTL (call_ttl c)).


(** [localStorage.key(i)] for [i] from 0 up: the keys in the order the
    browser enumerates them.  Removing an item leaves the keys that stay
    at their indices below it, as the loops that walk the indices
    downwards rely on. *)
Definition storage_keys (ls : gmap string StorageItem) : list string :=
  (map_to_list ls).*1.

(** [for (let i = localStorage.length - 1; i >= 0; i--)] with the body
    [if (key && test(key)) localStorage.removeItem(key)]. *)
Definition remove_where (test : string -> bool) (ls : gmap string StorageItem)
    : gmap string StorageItem :=
  fold_left (fun acc key => if truthy (JStr key) && test key then delete key acc else acc)
    (reverse (storage_keys ls)) ls.

(** [invalidatePattern(pattern)]: the memory keys are walked in
    insertion order, each matching one deleted on the way. *)
Definition invalidatePattern (pattern : string) (st : State) : State :=
  {| memoryCache :=
       fold_left (fun m key => if includes pattern key then map_delete key m else m)
         (map_keys (memoryCache st)) (memoryCache st);
     localStorage := remove_where (includes pattern) (localStorage st) |}.

(** [clear()] *)
Definition clear (st : State) : State :=
  {| memoryCache := [];
     localStorage := remove_where (String.prefix "api_cache_") (localStorage st) |}.

(** A page reload: [new APICache()] over the [localStorage] the last
    page left behind. *)
Definition reload (st : State) : State :=
  {| memoryCache := []; localStorage := localStorage st |}.

Record Stats : Type := mkStats {
  memorySize : Z;
  localStorageSize : Z
}.

(** [getStats()] *)
Definition getStats (st : State) : Stats :=
  {| memorySize := map_size (memoryCache st);
     localStorageSize :=
       Z.of_nat (length (List.filter
                           (fun key => truthy (JStr key) && String.prefix "api_cache_" key)
                           (storage_keys (localStorage st)))) |}.

End APICache.

(** ** The cache-wrapping decorator ([withCache], src/utils/apiCache.ts) *)

Module Decorator.
Import APICache.

(** The clock reads and the storage verdict one wrapped call consumes. *)
Record Clock : Type := mkClock {
  get_now_mem : Z;
  get_now_ls : Z;
  set_now_mem : Z;
  set_now_ls : Z;
  storage_accepts : bool
}.

(** What one wrapped call leaves behind: its settled value, the store,
    the state the wrapped operation works on, and the argument lists
    with which the wrapped operation was invoked during the call. *)
Record Run (W : Type) : Type := mkRun {
  outcome : Completion JSValue;
  cache : State;
  world : W;
  invoked : list (list JSValue)
}.
Arguments mkRun {W}.
Arguments outcome {W}.
Arguments cache {W}.
Arguments world {W}.
Arguments invoked {W}.

(** [result && typeof result === 'object' && 'success' in result &&
    result.success] *)
Definition is_success (result : JSValue) : bool :=
  truthy result &&
  match result with
  | JObj fields => has_field "success" result
                   && truthy (default JUndefined (lookup_field "success" fields))
  | _ => false  (* arrays are objects without a [success] property *)
  end.

(** [args.length > 0 ? { args } : undefined] *)
Definition params_of (args : list JSValue) : option (list (string * JSValue)) :=
  if 0 <? Z.of_nat (length args) then Some [("args", JArr args)] else None.

Section WithCache.
Context {W : Type}.
Variable fn : list JSValue -> W -> Completion JSValue * W.
Variable endpoint : string.
Variable ttl : option Z.

(** [withCache(fn, endpoint, ttl)(...args)] *)
Definition withCache (args : list JSValue) (clk : Clock) (st : State) (w : W) : Run W :=
  let params := params_of args in
  let '(cached, st1) := get endpoint params (get_now_mem clk) (get_now_ls clk) st in
  if truthy cached then mkRun (Normal cached) st1 w []
  else
    match fn args w with
    | (Throw m, w') => mkRun (Throw m) st1 w' [args]
    | (Normal result, w') =>
        let st2 :=
          if is_success result
          then set endpoint result params ttl
                 (set_now_mem clk) (set_now_ls clk) (storage_accepts clk) st1
          else st1 in
        mkRun (Normal result) st2 w' [args]
    end.
End WithCache.

End Decorator.

(** ** HTTP as the client and the server see it *)

Module Http.

Inductive Method : Type := GET | POST | PUT | DELETE.

(** A request to [http://localhost:3001]: the path in segments, the
    query string in pairs, and the JSON body as the server parses it. *)
Record Request : Type := mkRequest {
  method : Method;
  path : list string;
  query : list (string * string);
  body : option JSValue
}.

(** A response: its status and what [response.json()] settles to
    ([Throw] when the body is not JSON). *)
Record Response : Type := mkResponse {
  status : Z;
  json : Completion JSValue
}.

(** What [await fetch(...)] yields: a rejection (network failure) or a
    response. *)
Inductive FetchOutcome : Type :=
| Rejected (message : string)
| Settled (response : Response).

(** [response.ok] *)
Definition ok (r : Response) : bool := (200 <=? status r) && (status r <=? 299).

End Http.
Import Http.

(** ** The back end ([server.ts]) *)

Module Server.

(** A Prisma call either returns or raises an error whose [code]
    property may be set ([P2002] unique constraint, [P2025] record not
    found). *)
Inductive PrismaResult (A : Type) : Type :=
| Done (a : A)
| Failed (code : option string).
Arguments Done {A} a.
Arguments Failed {A} code.

(** The [data] argument of [prisma.user.create] and [update];
    [in_dateOfBirth] is the argument of [new Date(...)], [None] for the
    [null] branch. *)
Record UserInput : Type := mkInput {
  in_fullName : JSValue;
  in_email : JSValue;
  in_phoneNumber : JSValue;
  in_bio : JSValue;
  in_avatarUrl : JSValue;
  in_dateOfBirth : option JSValue;
  in_location : JSValue
}.

(** The part of [PrismaClient] the server calls, over a database state
    [DB]; rows are handed back as the objects [res.json] serialises. *)
Class Prisma (DB : Type) : Type := {
  (* prisma.user.findMany({ orderBy: { createdAt: 'desc' } }) *)
  findMany : DB -> PrismaResult (list JSValue);
  (* prisma.user.findUnique({ where: { id } }), [JNull] when absent *)
  findUnique : string -> DB -> PrismaResult JSValue;
  create : UserInput -> DB -> PrismaResult JSValue * DB;
  update : string -> UserInput -> DB -> PrismaResult JSValue * DB;
  delete : string -> DB -> PrismaResult unit * DB
}.

Definition error_body (text : string) : JSValue := JObj [("error", JStr text)].

(** [res.status(code).json(value)] as the client reads it back. *)
Definition send (code : Z) (value : JSValue) : Response :=
  mkResponse code (Normal (reparse value)).


Section Routes.
Context {DB : Type} `{Prisma DB}.

(** [app.get('/api/users', ...)]: [req.query] is never read. *)
Definition get_users (req : Request) (db : DB) : Response * DB :=
  match findMany db with
  | Done users => (send 200 (JArr users), db)
  | Failed _ => (send 500 (error_body "Failed to fetch users"), db)
  end.

(** [app.get('/api/users/:id', ...)] *)
Definition get_user (id : string) (db : DB) : Response * DB :=
  match findUnique id db with
  | Done user =>
      if negb (truthy user) then (send 404 (error_body "User not found"), db)
      else (send 200 user, db)
  | Failed _ => (send 500 (error_body "Failed to fetch user"), db)
  end.

(** The destructuring of [req.body] and the [data] object built from
    it; [Throw] when [req.body] is [null] or [undefined]. *)
Definition read_input (b : JSValue) : Completion UserInput :=
  bind (get_prop b "fullName") (fun fullName =>
  bind (get_prop b "email") (fun email =>
  bind (get_prop b "phoneNumber") (fun phoneNumber =>
  bind (get_prop b "bio") (fun bio =>
  bind (get_prop b "avatarUrl") (fun avatarUrl =>
  bind (get_prop b "dateOfBirth") (fun dateOfBirth =>
  bind (get_prop b "location") (fun location =>
  Normal (mkInput fullName email phoneNumber bio avatarUrl
            (if truthy dateOfBirth then Some dateOfBirth else None)
            location)))))))).

Definition missing_required (i : UserInput) : bool :=
  negb (truthy (in_fullName i)) || negb (truthy (in_email i)).

(** [app.post('/api/users', ...)] *)
Definition post_user (req : Request) (db : DB) : Response * DB :=
  match read_input (default JUndefined (body req)) with
  | Throw _ => (send 500 (error_body "Failed to create user"), db)
  | Normal input =>
      if missing_required input
      then (send 400 (error_body "Full name and email are required"), db)
      else
        match create input db with
        | (Done user, db') => (send 201 user, db')
        | (Failed code, db') =>
            if bool_decide (code = Some "P2002")
            then (send 400 (error_body "Email already exists"), db')
            else (send 500 (error_body "Failed to create user"), db')
        end
  end.

(** [app.put('/api/users/:id', ...)] *)
Definition put_user (id : string) (req : Request) (db : DB) : Response * DB :=
  match read_input (default JUndefined (body req)) with
  | Throw _ => (send 500 (error_body "Failed to update user"), db)
  | Normal input =>
      if missing_required input
      then (send 400 (error_body "Full name and email are required"), db)
      else
        match update id input db with
        | (Done user, db') => (send 200 user, db')
        | (Failed code, db') =>
            if bool_decide (code = Some "P2025")
            then (send 404 (error_body "User not found"), db')
            else if bool_decide (code = Some "P2002")
            then (send 400 (error_body "Email already exists"), db')
            else (send 500 (error_body "Failed to update user"), db')
        end
  end.

(** [app.delete('/api/users/:id', ...)] *)
Definition delete_user (id : string) (db : DB) : Response * DB :=
  match delete id db with
  | (Done _, db') => (send 200 (JObj [("message", JStr "User deleted successfully")]), db')
  | (Failed code, db') =>
      if bool_decide (code = Some "P2025")
      then (send 404 (error_body "User not found"), db')
      else (send 500 (error_body "Failed to delete user"), db')
  end.

(** Express's answer when no route matches: a 404 whose body is an
    HTML page, which [response.json()] rejects. *)
Definition no_route : Response :=
  mkResponse 404 (Throw "Unexpected token '<' is not valid JSON").

(** The routes of [app], in registration order. *)
Definition app (req : Request) (db : DB) : Response * DB :=
  match method req, path req with
  | GET, ["api"; "users"] => get_users req db
  | GET, ["api"; "users"; id] => get_user id db
  | POST, ["api"; "users"] => post_user req db
  | PUT, ["api"; "users"; id] => put_user id req db
  | DELETE, ["api"; "users"; id] => delete_user id db
  | _, _ => (no_route, db)
  end.

(** [fetch] against this server over a network that delivers. *)
Definition serve (req : Request) (db : DB) : FetchOutcome * DB :=
  let '(response, db') := app req db in (Settled response, db').
End Routes.

(** *** A table of profiles as the database *)

Record User : Type := mkUser {
  id : string;
  fullName : string;
  email : string;
  phoneNumber : option string;
  bio : option string;
  avatarUrl : option string;
  dateOfBirth : option string;
  location : option string;
  createdAt : string;  (* ISO-8601, as serialised *)
  updatedAt : string
}.

Definition nullable (o : option string) : JSValue :=
  match o with Some s => JStr s | None => JNull end.

Definition user_json (u : User) : JSValue :=
  JObj [("id", JStr (id u)); ("fullName", JStr (fullName u)); ("email", JStr (email u));
        ("phoneNumber", nullable (phoneNumber u)); ("bio", nullable (bio u));
        ("avatarUrl", nullable (avatarUrl u)); ("dateOfBirth", nullable (dateOfBirth u));
        ("location", nullable (location u));
        ("createdAt", JStr (createdAt u)); ("updatedAt", JStr (updatedAt u))].

(** Newest first: ISO-8601 timestamps of one width order as text. *)
Fixpoint insert_desc (u : User) (sorted : list User) : list User :=
  match sorted with
  | [] => [u]
  | v :: rest =>
      if String.leb (createdAt v) (createdAt u) then u :: sorted
      else v :: insert_desc u rest
  end.

Definition newest_first (rows : list User) : list User :=
  fold_right insert_desc [] rows.

Definition has_id (key : string) (u : User) : bool := String.eqb (id u) key.

(** The [users] table held as a list of rows.  Reads and deletes behave
    as Prisma documents them; the table takes no writes: [create] and
    [update] report a database error, which no property below relies
    on. *)
#[global] Instance table : Prisma (list User) := {
  findMany rows := Done (map user_json (newest_first rows));
  findUnique key rows :=
    Done (match find (has_id key) rows with Some u => user_json u | None => JNull end);
  create _ rows := (Failed None, rows);
  update _ _ rows := (Failed None, rows);
  delete key rows :=
    if existsb (has_id key) rows
    then (Done tt, List.filter (fun u => negb (has_id key u)) rows)
    else (Failed (Some "P2025"), rows)
}.

End Server.

(** ** The profile API client ([class UserProfileAPI], src/lib/api.ts) *)

Module UserProfileAPI.

(** [ApiResponse<T>]: [message] is typed [string], yet on an error
    response it is whatever the body's [error] property holds. *)
Record ApiResponse : Type := mkApiResponse {
  data : JSValue;
  success : bool;
  message : JSValue
}.

(** [{} as T] *)
Definition empty_placeholder : JSValue := JObj [].

Definition failure (message : JSValue) : ApiResponse :=
  mkApiResponse empty_placeholder false message.

(** [API_BASE_URL + rest] *)
Definition api (rest : list string) : list string := "api" :: rest.

(** [message.includes('404')]: a substring test on a string, a
    membership test on an array, a TypeError on anything else. *)
Definition message_includes (pattern : string) (message : JSValue) : Completion bool :=
  match message with
  | JStr s => Normal (includes pattern s)
  | JArr items =>
      Normal (existsb (is_string pattern) items)
  | JUndefined => Throw (type_error_undefined "includes")
  | JNull => Throw (type_error_null "includes")
  | _ => Throw "response.message.includes is not a function"
  end.

Section Client.
Context {S : Type}.
Variable fetch : Request -> S -> FetchOutcome * S.

(** [fetchWithErrorHandling(url, options)] *)
Definition fetchWithErrorHandling (req : Request) (s : S) : ApiResponse * S :=
  match fetch req s with
  | (Rejected m, s') => (failure (JStr m), s')
  | (Settled response, s') =>
      match json response with
      | Throw m => (failure (JStr m), s')
      | Normal body =>
          if negb (ok response) then
            match get_prop body "error" with
            | Throw m => (failure (JStr m), s')
            | Normal e =>
                (failure
                   (or_else e (JStr ("HTTP error! status: " +:+ pretty (status response)))),
                 s')
            end
          else (mkApiResponse body true (JStr "Operation completed successfully"), s')
      end
  end.

(** [getAllUsers(page, limit, search)] *)
Definition getAllUsers (page limit : Z) (search : string) (s : S) : ApiResponse * S :=
  fetchWithErrorHandling
    (mkRequest GET (api ["users"])
       [("page", pretty page); ("limit", pretty limit); ("search", trim search)] None) s.

(** [getAllUsersUnpaginated()] *)
Definition getAllUsersUnpaginated (s : S) : ApiResponse * S :=
  fetchWithErrorHandling (mkRequest GET (api ["users"]) [("limit", "1000")] None) s.

(** [getUserById(id)]; [Throw] when the call rejects. *)
Definition getUserById (id : string) (s : S) : Completion ApiResponse * S :=
  let '(response, s') :=
    fetchWithErrorHandling (mkRequest GET (api ["users"; id]) [] None) s in
  if success response then (Normal response, s')
  else
    match message_includes "404" (message response) with
    | Throw m => (Throw m, s')
    | Normal true => (Normal (mkApiResponse JNull false (JStr "User not found")), s')
    | Normal false => (Normal response, s')
    end.

(** [createUser(userData)] *)
Definition createUser (userData : JSValue) (s : S) : ApiResponse * S :=
  fetchWithErrorHandling (mkRequest POST (api ["users"]) [] (Some (reparse userData))) s.

(** [updateUser(id, userData)] *)
Definition updateUser (id : string) (userData : JSValue) (s : S) : ApiResponse * S :=
  fetchWithErrorHandling
    (mkRequest PUT (api ["users"; id]) [] (Some (reparse userData))) s.

(** [deleteUser(id)] *)
Definition deleteUser (id : string) (s : S) : ApiResponse * S :=
  let '(response, s') :=
    fetchWithErrorHandling (mkRequest DELETE (api ["users"; id]) [] None) s in
  (mkApiResponse (JBool (success response)) (success response) (message response), s').

(** [searchUsers(query, page, limit)] *)
Definition searchUsers (query : string) (page limit : Z) (s : S) : ApiResponse * S :=
  getAllUsers page limit query s.
End Client.

End UserProfileAPI.

(** ** The pagination coordinator ([function App], src/App.tsx) *)

Module App.
Import UserProfileAPI.

(** Everything the browser tab and the server hold outside the
    component: the database behind the REST boundary and the
    [apiCache] singleton. *)
Record World (DB : Type) : Type := mkWorld {
  database : DB;
  apiCache : APICache.State
}.
Arguments mkWorld {DB}.
Arguments database {DB}.
Arguments apiCache {DB}.

(** [fetch] as the tab performs it: the request reaches the server,
    the cache singleton is not involved. *)
Definition browser_fetch {DB} `{Server.Prisma DB}
    (req : Request) (w : World DB) : FetchOutcome * World DB :=
  let '(o, db') := Server.serve req (database w) in
  (o, mkWorld db' (apiCache w)).

Record Notification : Type := mkNotification {
  nid : string;  (* Date.now().toString() *)
  ntype : string;
  ntext : JSValue;
  duration : option Z
}.

(** The component state the coordinator reads and writes. *)
Record AppState : Type := mkApp {
  users : JSValue;
  isLoading : bool;
  searchQuery : string;
  currentPage : Z;
  pagination : JSValue;
  debouncedSearchQuery : string;
  showDeleteModal : bool;
  userToDelete : option Server.User;
  notifications : list Notification
}.

Definition initial_pagination : JSValue :=
  JObj [("currentPage", JNum 1); ("totalPages", JNum 1); ("totalUsers", JNum 0);
        ("limit", JNum 20); ("hasNextPage", JBool false); ("hasPrevPage", JBool false)].

(** The state of the first render. *)
Definition initial : AppState :=
  mkApp (JArr []) true "" 1 initial_pagination "" false None [].

Definition setUsers (v : JSValue) (st : AppState) : AppState :=
  mkApp v (isLoading st) (searchQuery st) (currentPage st) (pagination st)
    (debouncedSearchQuery st) (showDeleteModal st) (userToDelete st) (notifications st).
Definition setIsLoading (b : bool) (st : AppState) : AppState :=
  mkApp (users st) b (searchQuery st) (currentPage st) (pagination st)
    (debouncedSearchQuery st) (showDeleteModal st) (userToDelete st) (notifications st).
Definition setCurrentPage (p : Z) (st : AppState) : AppState :=
  mkApp (users st) (isLoading st) (searchQuery st) p (pagination st)
    (debouncedSearchQuery st) (showDeleteModal st) (userToDelete st) (notifications st).
Definition setPagination (v : JSValue) (st : AppState) : AppState :=
  mkApp (users st) (isLoading st) (searchQuery st) (currentPage st) v
    (debouncedSearchQuery st) (showDeleteModal st) (userToDelete st) (notifications st).
Definition setShowDeleteModal (b : bool) (st : AppState) : AppState :=
  mkApp (users st) (isLoading st) (searchQuery st) (currentPage st) (pagination st)
    (debouncedSearchQuery st) b (userToDelete st) (notifications st).
Definition setUserToDelete (u : option Server.User) (st : AppState) : AppState :=
  mkApp (users st) (isLoading st) (searchQuery st) (currentPage st) (pagination st)
    (debouncedSearchQuery st) (showDeleteModal st) u (notifications st).

(** [addNotification(type, message)], [now] being its [Date.now()]. *)
Definition addNotification (type : string) (text : JSValue) (now : Z)
    (st : AppState) : AppState :=
  mkApp (users st) (isLoading st) (searchQuery st) (currentPage st) (pagination st)
    (debouncedSearchQuery st) (showDeleteModal st) (userToDelete st)
    (notifications st ++ [mkNotification (pretty now) type text None]).

(** [loadUsers] up to its [await]: the spinner is raised and the list
    request leaves with page size 20. *)
Definition loadUsers_dispatch (st : AppState) : AppState := setIsLoading true st.

(** [loadUsers] from its [await] on, given the response that arrived.
    The flag tells whether the [try] block threw (reading
    [response.data.data] off [null]); [finally] lowers the spinner
    either way. *)
Definition loadUsers_settle (response : ApiResponse) (now : Z)
    (st : AppState) : Completion unit * AppState :=
  if success response then
    match get_prop (data response) "data" with
    | Throw m => (Throw m, setIsLoading false st)
    | Normal listed =>
        match get_prop (data response) "pagination" with
        | Throw m => (Throw m, setIsLoading false (setUsers listed st))
        | Normal descriptor =>
            (Normal tt, setIsLoading false (setPagination descriptor (setUsers listed st)))
        end
    end
  else
    (Normal tt,
     setIsLoading false (addNotification "error" (JStr "Failed to load users") now st)).

(** [handlePageChange(page)] *)
Definition handlePageChange (page : Z) (st : AppState) : AppState := setCurrentPage page st.

(** A page navigation up to the [await] of the reload it causes: the
    handler sets the page, the effect on [currentPage] starts
    [loadUsers]. *)
Definition navigate (page : Z) (st : AppState) : AppState :=
  loadUsers_dispatch (handlePageChange page st).

(** What the client hands back for a 200 whose body is
    [{data, pagination}]. *)
Definition page_response (listed descriptor : JSValue) : ApiResponse :=
  mkApiResponse (JObj [("data", listed); ("pagination", descriptor)]) true
    (JStr "Operation completed successfully").

Section Coordinator.
Context {S : Type}.
Variable fetch : Request -> S -> FetchOutcome * S.

(** [loadUsers(page, search)] run to completion with no other event in
    between. *)
Definition loadUsers (page : Z) (search : string) (now : Z)
    (st : AppState) (s : S) : Completion unit * AppState * S :=
  let st1 := loadUsers_dispatch st in
  let '(response, s') := getAllUsers fetch page 20 search s in
  (loadUsers_settle response now st1, s').

(** [handleDeleteUser()], the reload it starts run to completion.
    [now_delete] is the clock read by the notification of the delete,
    [now_load] the one read by a failed reload.  The component is the
    completion of the reload, which the handler does not await. *)
Definition handleDeleteUser (now_delete now_load : Z)
    (st : AppState) (s : S) : Completion unit * AppState * S :=
  match userToDelete st with
  | None => (Normal tt, st, s)
  | Some target =>
      let '(response, s1) := deleteUser fetch (Server.id target) s in
      if success response then
        let st1 := addNotification "success" (JStr "User deleted successfully!")
                     now_delete st in
        let st2 := setUserToDelete None (setShowDeleteModal false st1) in
        loadUsers (currentPage st) (debouncedSearchQuery st) now_load st2 s1
      else
        (Normal tt, addNotification "error" (message response) now_delete st, s1)
  end.
End Coordinator.

(** What the list component is given to render. *)
Definition shown (st : AppState) : JSValue * JSValue := (users st, pagination st).

End App.

(** ** The QR envelope codec ([QRCodeModal], src/components/QRCodeModal.tsx) *)

Module QRCodec.

(** [x || ''] on an optional text field. *)
Definition or_empty (o : option string) : JSValue :=
  or_else (Server.nullable o) (JStr "").

(** The [qrData] object [generateQRCode] serialises into the image. *)
Definition qrData (user : Server.User) : JSValue :=
  JObj [("type", JStr "user-profile");
        ("version", JStr "1.0");
        ("data",
         JObj [("fullName", JStr (Server.fullName user));
               ("email", JStr (Server.email user));
               ("phoneNumber", or_empty (Server.phoneNumber user));
               ("bio", or_empty (Server.bio user));
               ("avatarUrl", or_empty (Server.avatarUrl user));
               ("dateOfBirth",
                if truthy (Server.nullable (Server.dateOfBirth user))
                then JStr (before_T (default "" (Server.dateOfBirth user)))
                else JStr "");
               ("location", or_empty (Server.location user))])].

(** The payload of the image: what [JSON.parse] makes of the text
    [JSON.stringify(qrData)] once the scanner has read it back. *)
Definition payload (user : Server.User) : Completion JSValue :=
  Normal (reparse (qrData user)).

(** [UserFormData] as [handleScanResult] builds it: each field is
    whatever truthy value the payload carried, else the empty string. *)
Record UserFormData : Type := mkForm {
  fullName : JSValue;
  email : JSValue;
  phoneNumber : JSValue;
  bio : JSValue;
  avatarUrl : JSValue;
  dateOfBirth : JSValue;
  location : JSValue
}.

(** How a scan ends: the form data handed to [onUserDataScanned] (and
    the modal closed), or the message handed to [setErrorFn]. *)
Inductive ScanOutcome : Type :=
| Accepted (userData : UserFormData)
| Refused (error : string).

Definition field (d : JSValue) (name : string) : Completion JSValue :=
  bind (get_prop d name) (fun v => Normal (or_else v (JStr ""))).

(** The [try] block of [handleScanResult], [parsedData] being the
    completion of [JSON.parse(result)]. *)
Definition validate (parsedData : Completion JSValue) : Completion UserFormData :=
  bind parsedData (fun parsed =>
  bind (get_prop parsed "type") (fun tag =>
  if negb (is_string "user-profile" tag) then Throw "Invalid QR code format"
  else
    bind (get_prop parsed "data") (fun d =>
    if negb (truthy d) then Throw "Invalid QR code format"
    else
      bind (field d "fullName") (fun fullName =>
      bind (field d "email") (fun email =>
      bind (field d "phoneNumber") (fun phoneNumber =>
      bind (field d "bio") (fun bio =>
      bind (field d "avatarUrl") (fun avatarUrl =>
      bind (field d "dateOfBirth") (fun dateOfBirth =>
      bind (field d "location") (fun location =>
      let userData :=
        mkForm fullName email phoneNumber bio avatarUrl dateOfBirth location in
      if negb (truthy fullName) || negb (truthy email)
      then Throw "QR code missing required user information"
      else Normal userData)))))))))).

(** An optional text field that is absent or holds the empty string. *)
Definition is_blank (o : option string) : bool :=
  match o with
  | None => true
  | Some s => String.eqb s ""
  end.

(** A profile whose optional fields are all empty. *)
Definition bare (user : Server.User) : bool :=
  is_blank (Server.phoneNumber user) && is_blank (Server.bio user)
  && is_blank (Server.avatarUrl user) && is_blank (Server.dateOfBirth user)
  && is_blank (Server.location user).

(** [handleScanResult(result, setErrorFn)] *)
Definition handleScanResult (parsedData : Completion JSValue) : ScanOutcome :=
  match validate parsedData with
  | Normal userData => Accepted userData
  | Throw _ => Refused "Invalid QR code format or missing required information."
  end.


(** The [download] attribute [downloadQRCode] gives the link. *)
Definition download_name (user : Server.User) : string :=
  "qr-code-" +:+ toLowerCase (replace_space_runs (Server.fullName user)) +:+ ".png".

(** The form data a decoded profile yields, field by field. *)
Definition decoded (user : Server.User) : UserFormData :=
  mkForm (JStr (Server.fullName user)) (JStr (Server.email user))
    (or_empty (Server.phoneNumber user)) (or_empty (Server.bio user))
    (or_empty (Server.avatarUrl user))
    (JStr (before_T (default "" (Server.dateOfBirth user))))
    (or_empty (Server.location user)).

End QRCodec.

(** ** The page controls ([UserProfileList], src/components/UserProfileList.tsx) *)

Module Pagination.

(** [PaginationInfo] *)
Record PaginationInfo : Type := mkPagination {
  currentPage : Z;
  totalPages : Z;
  totalUsers : Z;
  limit : Z;
  hasNextPage : bool;
  hasPrevPage : bool
}.

(** [Math.max(1, currentPage - 2)] *)
Definition startPage (p : PaginationInfo) : Z := Z.max 1 (currentPage p - 2).

(** [Math.min(totalPages, currentPage + 2)] *)
Definition endPage (p : PaginationInfo) : Z := Z.min (totalPages p) (currentPage p + 2).

(** [for (let i = startPage; i <= endPage; i++) pageNumbers.push(i)] *)
Definition pageNumbers (p : PaginationInfo) : list Z :=
  seqZ (startPage p) (endPage p - startPage p + 1).

(** What [renderPaginationControls] lays out, left to right; a button
    carries the page its click hands to [onPageChange]. *)
Inductive Control : Type :=
| Previous (target : Z) (disabled : bool)
| PageButton (page : Z) (highlighted : bool)
| Ellipsis
| Next (target : Z) (disabled : bool).

(** [renderPaginationControls()] with a descriptor and a handler at
    hand; [None] is the [null] it returns for a single page. *)
Definition renderPaginationControls (p : PaginationInfo) : option (list Control) :=
  if totalPages p <=? 1 then None
  else
    Some
      ([Previous (currentPage p - 1) (negb (hasPrevPage p))]
       ++ (if 1 <? startPage p
           then PageButton 1 false :: (if 2 <? startPage p then [Ellipsis] else [])
           else [])
       ++ map (fun page => PageButton page (page =? currentPage p)) (pageNumbers p)
       ++ (if endPage p <? totalPages p
           then (if endPage p <? totalPages p - 1 then [Ellipsis] else [])
                ++ [PageButton (totalPages p) false]
           else [])
       ++ [Next (currentPage p + 1) (negb (hasNextPage p))]).

(** The pages of the numbered buttons, left to right. *)
Fixpoint button_pages (controls : list Control) : list Z :=
  match controls with
  | [] => []
  | PageButton page _ :: rest => page :: button_pages rest
  | _ :: rest => button_pages rest
  end.

(** The two numbers of the results summary of the list component:
    [totalUsers > 0 ? (currentPage - 1) * 20 + 1 : 0] and
    [Math.min(currentPage * 20, totalUsers)]. *)
Definition summary_from (p : PaginationInfo) : Z :=
  if 0 <? totalUsers p then (currentPage p - 1) * 20 + 1 else 0.
Definition summary_to (p : PaginationInfo) : Z :=
  Z.min (currentPage p * 20) (totalUsers p).

End Pagination.

(** ** The form and dialog handlers ([function App], src/App.tsx) *)

Module AppDialogs.
Import UserProfileAPI App.

Inductive QRMode : Type := Generate | Scan.

(** The component state behind the form, the QR modal and their flags. *)
Record Dialogs : Type := mkDialogs {
  isFormLoading : bool;
  showForm : bool;
  editingUser : option Server.User;
  showQRModal : bool;
  qrModalMode : QRMode;
  qrUser : option Server.User;
  scannedUserData : option QRCodec.UserFormData
}.

Definition initial_dialogs : Dialogs := mkDialogs false false None false Generate None None.

Definition setIsFormLoading (b : bool) (d : Dialogs) : Dialogs :=
  mkDialogs b (showForm d) (editingUser d) (showQRModal d) (qrModalMode d) (qrUser d)
    (scannedUserData d).
Definition setShowForm (b : bool) (d : Dialogs) : Dialogs :=
  mkDialogs (isFormLoading d) b (editingUser d) (showQRModal d) (qrModalMode d) (qrUser d)
    (scannedUserData d).
Definition setEditingUser (u : option Server.User) (d : Dialogs) : Dialogs :=
  mkDialogs (isFormLoading d) (showForm d) u (showQRModal d) (qrModalMode d) (qrUser d)
    (scannedUserData d).
Definition setScannedUserData (u : option QRCodec.UserFormData) (d : Dialogs) : Dialogs :=
  mkDialogs (isFormLoading d) (showForm d) (editingUser d) (showQRModal d) (qrModalMode d)
    (qrUser d) u.
Definition setShowQRModal (b : bool) (d : Dialogs) : Dialogs :=
  mkDialogs (isFormLoading d) (showForm d) (editingUser d) b (qrModalMode d) (qrUser d)
    (scannedUserData d).
Definition setQrModalMode (m : QRMode) (d : Dialogs) : Dialogs :=
  mkDialogs (isFormLoading d) (showForm d) (editingUser d) (showQRModal d) m (qrUser d)
    (scannedUserData d).
Definition setQrUser (u : option Server.User) (d : Dialogs) : Dialogs :=
  mkDialogs (isFormLoading d) (showForm d) (editingUser d) (showQRModal d) (qrModalMode d) u
    (scannedUserData d).

Definition setSearchQuery (q : string) (st : AppState) : AppState :=
  mkApp (users st) (isLoading st) q (currentPage st) (pagination st)
    (debouncedSearchQuery st) (showDeleteModal st) (userToDelete st) (notifications st).

(** [removeNotification(id)] *)
Definition removeNotification (id : string) (st : AppState) : AppState :=
  mkApp (users st) (isLoading st) (searchQuery st) (currentPage st) (pagination st)
    (debouncedSearchQuery st) (showDeleteModal st) (userToDelete st)
    (List.filter (fun n => negb (String.eqb (nid n) id)) (notifications st)).

(** [handleSearch(query)] *)
Definition handleSearch (query : string) (st : AppState) : AppState :=
  setCurrentPage 1 (setSearchQuery query st).

(** [handleEdit(user)] *)
Definition handleEdit (user : Server.User) (d : Dialogs) : Dialogs :=
  setShowForm true (setEditingUser (Some user) d).

(** [handleDelete(user)] *)
Definition handleDelete (user : Server.User) (st : AppState) : AppState :=
  setShowDeleteModal true (setUserToDelete (Some user) st).

(** [handleCancelForm()] *)
Definition handleCancelForm (d : Dialogs) : Dialogs :=
  setScannedUserData None (setEditingUser None (setShowForm false d)).

(** [handleCancelDelete()] *)
Definition handleCancelDelete (st : AppState) : AppState :=
  setUserToDelete None (setShowDeleteModal false st).

(** [handleGenerateQR(user)] *)
Definition handleGenerateQR (user : Server.User) (d : Dialogs) : Dialogs :=
  setShowQRModal true (setQrModalMode Generate (setQrUser (Some user) d)).

(** [handleScanQR()] *)
Definition handleScanQR (d : Dialogs) : Dialogs :=
  setShowQRModal true (setQrModalMode Scan d).

(** [handleUserDataScanned(userData)] *)
Definition handleUserDataScanned (userData : QRCodec.UserFormData) (d : Dialogs) : Dialogs :=
  setEditingUser None (setShowForm true (setScannedUserData (Some userData) d)).

(** A transport that also appends every request it is handed to a log. *)
Definition recording {S : Type} (fetch : Request -> S -> FetchOutcome * S)
    (req : Request) (s : S * list Request) : FetchOutcome * (S * list Request) :=
  let '(o, s') := fetch req (fst s) in (o, (s', snd s ++ [req])).

(** The request [getAllUsers(page, 20, search)] sends. *)
Definition list_request (page : Z) (search : string) : Request :=
  mkRequest GET (api ["users"])
    [("page", pretty page); ("limit", pretty 20); ("search", trim search)] None.

Section Handlers.
Context {S : Type}.
Variable fetch : Request -> S -> FetchOutcome * S.

(** [handleCreateUser(userData)], the reload it starts run to
    completion.  [now_result] is the clock read by the notification of
    the create, [now_load] the one read by a failed reload. *)
Definition handleCreateUser (userData : JSValue) (now_result now_load : Z)
    (st : AppState) (d : Dialogs) (s : S) : Completion unit * AppState * Dialogs * S :=
  let d1 := setIsFormLoading true d in
  let '(response, s1) := createUser fetch userData s in
  if success response then
    let st1 := addNotification "success" (JStr "User created successfully!") now_result st in
    let d2 := setShowForm false d1 in
    let '(c, st2, s2) :=
      loadUsers fetch (currentPage st) (debouncedSearchQuery st) now_load st1 s1 in
    (c, st2, setIsFormLoading false d2, s2)
  else
    (Normal tt, addNotification "error" (message response) now_result st,
     setIsFormLoading false d1, s1).

(** [handleUpdateUser(userData)] *)
Definition handleUpdateUser (userData : JSValue) (now_result now_load : Z)
    (st : AppState) (d : Dialogs) (s : S) : Completion unit * AppState * Dialogs * S :=
  match editingUser d with
  | None => (Normal tt, st, d, s)
  | Some edited =>
      let d1 := setIsFormLoading true d in
      let '(response, s1) := updateUser fetch (Server.id edited) userData s in
      if success response then
        let st1 := addNotification "success" (JStr "User updated successfully!")
                     now_result st in
        let d2 := setEditingUser None (setShowForm false d1) in
        let '(c, st2, s2) :=
          loadUsers fetch (currentPage st) (debouncedSearchQuery st) now_load st1 s1 in
        (c, st2, setIsFormLoading false d2, s2)
      else
        (Normal tt, addNotification "error" (message response) now_result st,
         setIsFormLoading false d1, s1)
  end.

(** [handleSubmitForm(userData)] *)
Definition handleSubmitForm (userData : JSValue) (now_result now_load : Z)
    (st : AppState) (d : Dialogs) (s : S) : Completion unit * AppState * Dialogs * S :=
  match editingUser d with
  | Some _ => handleUpdateUser userData now_result now_load st d s
  | None => handleCreateUser userData now_result now_load st d s
  end.
End Handlers.

End AppDialogs.

(** ** Concrete inputs used by the examples below *)

Module Sample.

(** Two characters of the Latin-1 range whose base64 texts differ only
    in a character the key derivation strips. *)
Definition o_slash : string := String "248"%char EmptyString.
Definition u_umlaut : string := String "252"%char EmptyString.

Fixpoint replicate (n : nat) (c : ascii) : string :=
  match n with
  | O => EmptyString
  | S n' => String c (replicate n' c)
  end.

(** A value whose JSON text has 100002 characters. *)
Definition big_value : JSValue := JStr (replicate (N.to_nat 100000) "a").

Definition ada : Server.User :=
  Server.mkUser "u1" "Ada Lovelace" "ada@example.org" None None None None None
    "2024-01-01T00:00:00.000Z" "2024-01-01T00:00:00.000Z".
Definition bob : Server.User :=
  Server.mkUser "u2" "Bob Stone" "bob@example.org" (Some "555-0100") None None
    (Some "1990-05-17T00:00:00.000Z") (Some "Oslo")
    "2024-02-01T00:00:00.000Z" "2024-02-01T00:00:00.000Z".

(** A list result as the decorator would have stored it, with both
    sample profiles on the page. *)
Definition cached_page : JSValue :=
  JObj [("data", JArr [Server.user_json bob; Server.user_json ada]);
        ("success", JBool true);
        ("message", JStr "Operation completed successfully")].

(** The arguments of the list call that produced it. *)
Definition page_args : list JSValue := [JNum 1; JNum 20; JStr ""].

(** A tab whose store holds that page, in front of a database holding
    both profiles. *)
Definition cached_world : App.World (list Server.User) :=
  App.mkWorld [ada; bob]
    (APICache.set "/users" cached_page (Decorator.params_of page_args) None 0 0 true
       APICache.empty).

(** Descriptors of a two-page result. *)
Definition descriptor (page : Z) : JSValue :=
  JObj [("currentPage", JNum page); ("totalPages", JNum 2); ("totalUsers", JNum 2);
        ("limit", JNum 1); ("hasNextPage", JBool (page <? 2));
        ("hasPrevPage", JBool (1 <? page))].

(** A server that answers every request with status 500 and the number
    404 as its error. *)
Definition numeric_error_fetch (req : Request) (s : unit) : FetchOutcome * unit :=
  (Settled (mkResponse 500 (Normal (JObj [("error", JNum 404)]))), s).

(** The [n]-th of a family of list calls, each with a key of its own. *)
Definition nth_call (n : nat) : APICache.SetCall :=
  APICache.mkSetCall ("/users/" +:+ pretty n) (JNum (Z.of_nat n)) None None
    (Z.of_nat n) (Z.of_nat n) true.

(** A wrapped operation that counts its invocations and answers with a
    success envelope around its arguments. *)
Definition counting_fn (args : list JSValue) (calls : nat) : Completion JSValue * nat :=
  (Normal (JObj [("data", JArr args); ("success", JBool true)]), S calls).

(** A wrapped operation that always reports a failure. *)
Definition failing_fn (args : list JSValue) (calls : nat) : Completion JSValue * nat :=
  (Normal (JObj [("data", JObj []); ("success", JBool false)]), S calls).

(** A store whose memory layer is full with a hundred keys and whose
    storage holds a live entry for one more. *)
Definition full_store : APICache.State :=
  APICache.mkState
    (APICache.memoryCache
       (APICache.run_sets (map nth_call (seq 0 100)) APICache.empty))
    {[ APICache.generateKey "/extra" None
       := APICache.EntryText (APICache.mkEntry (JStr "kept") 0 1000) ]}.

(** A store with two entries in both layers. *)
Definition two_entries : APICache.State :=
  APICache.run_sets [nth_call 1; nth_call 2] APICache.empty.

End Sample.

(** * Properties *)

(** ** The insertion-ordered map *)

Section JSMapFacts.
Import APICache.

Lemma map_get_set_eq key e m : map_get key (map_set key e m) = Some e.
Proof.
  induction m as [|[k x] m IH]; simpl.
  - now rewrite String.eqb_refl.
  - destruct (String.eqb k key) eqn:E; simpl; rewrite E; auto.
Qed.

Lemma map_get_set_ne key key' e m :
  key <> key' -> map_get key' (map_set key e m) = map_get key' m.
Proof.
  intros Hne. induction m as [|[k x] m IH]; simpl.
  - destruct (String.eqb key key') eqn:E; [apply String.eqb_eq in E; contradiction | reflexivity].
  - destruct (String.eqb k key) eqn:E; simpl.
    + apply String.eqb_eq in E. subst k.
      destruct (String.eqb key key') eqn:E'; [apply String.eqb_eq in E'; contradiction | reflexivity].
    + destruct (String.eqb k key'); auto.
Qed.

Lemma length_map_set key e m : (length (map_set key e m) <= S (length m))%nat.
Proof.
  induction m as [|[k x] m IH]; simpl; [lia|].
  destruct (String.eqb k key); simpl; lia.
Qed.

Lemma map_keys_set key e m :
  Forall (fun k => k <> EmptyString) (map_keys m) -> key <> EmptyString ->
  Forall (fun k => k <> EmptyString) (map_keys (map_set key e m)).
Proof.
  intros Hm Hk. induction m as [|[k x] m IH]; simpl.
  - constructor; [assumption | constructor].
  - inversion Hm; subst. destruct (String.eqb k key); simpl; constructor; auto.
Qed.
End JSMapFacts.

(** ** Cache keys *)

Section KeyDerivation.
Import APICache.

Lemma generateKey_prefix endpoint params :
  exists rest, generateKey endpoint params = String "a" rest.
Proof. unfold generateKey. simpl. eauto. Qed.

Lemma generateKey_nonempty endpoint params : generateKey endpoint params <> EmptyString.
Proof. destruct (generateKey_prefix endpoint params) as [rest ->]. discriminate. Qed.

(** A [get] right after a [set] is served by the memory entry the [set]
    wrote, whatever pair of arguments derived the key. *)
Lemma get_after_set_shared_key e1 p1 e2 p2 value ttl t_mem t_ls accepts n1 n2 st :
  generateKey e1 p1 = generateKey e2 p2 ->
  n1 - t_mem < default DEFAULT_TTL ttl ->
  get e2 p2 n1 n2 (set e1 value p1 ttl t_mem t_ls accepts st)
  = (value, set e1 value p1 ttl t_mem t_ls accepts st).
Proof.
  intros Hkey Hfresh. unfold get.
  replace (map_get (generateKey e2 p2) (memoryCache (set e1 value p1 ttl t_mem t_ls accepts st)))
    with (Some (mkEntry value t_mem (default DEFAULT_TTL ttl))).
  - unfold isValidEntry. simpl.
    destruct (Z.ltb_spec (n1 - t_mem) (default DEFAULT_TTL ttl)); [reflexivity | lia].
  - rewrite <- Hkey. unfold set. simpl. now rewrite map_get_set_eq.
Qed.

(** C10. The key derivation is not injective.  The endpoint and the
    serialised parameters are concatenated before encoding, so moving
    text from one to the other keeps the key; and the characters [+],
    [/] and [=] are stripped from the base64 text, so two inputs whose
    encodings differ only there share a key.  In both cases a [get]
    with one pair returns the value a [set] stored under the other. *)
Theorem generateKey_not_injective :
  (exists e1 p1 e2 p2,
      (e1, p1) <> (e2, p2)
      /\ generateKey e1 p1 = generateKey e2 p2
      /\ forall value t st,
          fst (get e2 p2 t t (set e1 value p1 None t t true st)) = value)
  /\ (exists e1 e2,
      btoa e1 <> btoa e2
      /\ strip_non_alnum (btoa e1) = strip_non_alnum (btoa e2)
      /\ generateKey e1 None = generateKey e2 None
      /\ forall value t st,
          fst (get e2 None t t (set e1 value None None t t true st)) = value).
Proof.
  split.
  - exists "/users{}", None, "/users", (Some []).
    assert (Hkey : generateKey "/users{}" None = generateKey "/users" (Some []))
      by reflexivity.
    split; [discriminate|]. split; [exact Hkey|].
    intros value t st. rewrite (get_after_set_shared_key _ _ _ _ _ _ _ _ _ _ _ _ Hkey).
    + reflexivity.
    + simpl. unfold DEFAULT_TTL. lia.
  - exists Sample.o_slash, Sample.u_umlaut.
    assert (Hkey : generateKey Sample.o_slash None = generateKey Sample.u_umlaut None)
      by reflexivity.
    split; [vm_compute; discriminate|]. split; [reflexivity|]. split; [exact Hkey|].
    intros value t st. rewrite (get_after_set_shared_key _ _ _ _ _ _ _ _ _ _ _ _ Hkey).
    + reflexivity.
    + simpl. unfold DEFAULT_TTL. lia.
Qed.
End KeyDerivation.

(** ** Capacity of the memory layer *)

Section Capacity.
Import APICache.

Lemma run_sets_snoc calls c st : run_sets (calls ++ [c]) st = do_set c (run_sets calls st).
Proof. unfold run_sets. now rewrite fold_left_app. Qed.

(** On a store whose keys are all non-empty strings, [set] drops the
    first binding when the map is full and then writes its own. *)
Lemma set_memoryCache endpoint value params ttl t_mem t_ls accepts st :
  Forall (fun k => k <> EmptyString) (map_keys (memoryCache st)) ->
  memoryCache (set endpoint value params ttl t_mem t_ls accepts st)
  = map_set (generateKey endpoint params) (mkEntry value t_mem (default DEFAULT_TTL ttl))
      (if MAX_MEMORY_ITEMS <=? map_size (memoryCache st)
       then tl (memoryCache st) else memoryCache st).
Proof.
  intros Hkeys. unfold set. cbn [memoryCache].
  destruct (MAX_MEMORY_ITEMS <=? map_size (memoryCache st)); [|reflexivity].
  destruct (memoryCache st) as [|[k0 e0] rest]; [reflexivity|].
  cbn [first_key map_keys map fst head tl]. inversion Hkeys as [|? ? Hk0 _]; subst.
  assert (Htruthy : truthy (JStr k0) = true).
  { simpl. destruct (String.eqb_spec k0 EmptyString); [contradiction | reflexivity]. }
  rewrite Htruthy. cbn [map_delete]. now rewrite String.eqb_refl.
Qed.

Lemma set_keeps_nonempty_keys endpoint value params ttl t_mem t_ls accepts st :
  Forall (fun k => k <> EmptyString) (map_keys (memoryCache st)) ->
  Forall (fun k => k <> EmptyString)
    (map_keys (memoryCache (set endpoint value params ttl t_mem t_ls accepts st))).
Proof.
  intros Hkeys. rewrite set_memoryCache by assumption.
  apply map_keys_set; [|apply generateKey_nonempty].
  destruct (MAX_MEMORY_ITEMS <=? map_size (memoryCache st)); [|assumption].
  destruct (memoryCache st) as [|[k0 e0] rest]; [constructor|].
  now inversion Hkeys.
Qed.

Lemma run_sets_nonempty_keys ls calls :
  Forall (fun k => k <> EmptyString)
    (map_keys (memoryCache (run_sets calls (mkState [] ls)))).
Proof.
  induction calls as [|c calls IH] using rev_ind.
  - constructor.
  - rewrite run_sets_snoc. now apply set_keeps_nonempty_keys.
Qed.

Lemma set_size_bound endpoint value params ttl t_mem t_ls accepts st :
  Forall (fun k => k <> EmptyString) (map_keys (memoryCache st)) ->
  map_size (memoryCache st) <= MAX_MEMORY_ITEMS ->
  map_size (memoryCache (set endpoint value params ttl t_mem t_ls accepts st))
  <= MAX_MEMORY_ITEMS.
Proof.
  intros Hkeys Hsize. rewrite set_memoryCache by assumption.
  unfold map_size, MAX_MEMORY_ITEMS in *.
  pose proof (length_map_set (generateKey endpoint params)
                (mkEntry value t_mem (default DEFAULT_TTL ttl))) as Hlen.
  destruct (Z.leb_spec 100 (Z.of_nat (length (memoryCache st)))) as [Hfull|Hroom].
  - specialize (Hlen (tl (memoryCache st))).
    destruct (memoryCache st) as [|b rest]; simpl in *; lia.
  - specialize (Hlen (memoryCache st)). lia.
Qed.

Lemma run_sets_size_bound ls calls :
  map_size (memoryCache (run_sets calls (mkState [] ls))) <= MAX_MEMORY_ITEMS.
Proof.
  induction calls as [|c calls IH] using rev_ind.
  - unfold map_size, MAX_MEMORY_ITEMS. simpl. lia.
  - rewrite run_sets_snoc. apply set_size_bound; [apply run_sets_nonempty_keys | exact IH].
Qed.

Lemma map_keys_set_fresh key e m :
  ~ In key (map_keys m) -> map_keys (map_set key e m) = map_keys m ++ [key].
Proof.
  induction m as [|[k x] m IH]; simpl; intros Hfresh; [reflexivity|].
  destruct (String.eqb_spec k key) as [->|Hne]; [tauto|].
  simpl. f_equal. apply IH. tauto.
Qed.

(** With keys that are pairwise distinct the memory layer holds the
    last hundred of them, in the order of the calls. *)
Lemma run_sets_fifo ls calls :
  NoDup (map call_key calls) ->
  map_keys (memoryCache (run_sets calls (mkState [] ls)))
  = drop (length calls - 100) (map call_key calls).
Proof.
  induction calls as [|c calls IH] using rev_ind; intros Hnodup; [reflexivity|].
  rewrite map_app in Hnodup. simpl in Hnodup.
  apply NoDup_app in Hnodup as (Hcalls & Hfresh & _).
  specialize (IH Hcalls).
  rewrite run_sets_snoc. unfold do_set.
  rewrite set_memoryCache by apply run_sets_nonempty_keys.
  fold (call_key c).
  assert (Hlen : length (map_keys (memoryCache (run_sets calls (mkState [] ls))))
                 = Nat.min (length calls) 100).
  { rewrite IH, length_drop, length_map. lia. }
  unfold map_keys in Hlen. rewrite length_map in Hlen.
  rewrite map_app, length_app. cbn [map length].
  assert (Hc : ~ In (call_key c) (map call_key calls)).
  { intros Hin. apply (Hfresh (call_key c)); [now apply list_elem_of_In | set_solver]. }
  unfold map_size, MAX_MEMORY_ITEMS.
  destruct (Z.leb_spec 100 (Z.of_nat (length (memoryCache (run_sets calls (mkState [] ls))))))
    as [Hfull|Hroom].
  - assert (Hge : (100 <= length calls)%nat) by lia.
    rewrite map_keys_set_fresh.
    + replace (map_keys (tl (memoryCache (run_sets calls (mkState [] ls)))))
        with (drop 1 (map_keys (memoryCache (run_sets calls (mkState [] ls)))))
        by (destruct (memoryCache (run_sets calls (mkState [] ls))); reflexivity).
      rewrite IH, drop_drop.
      replace (length calls + 1 - 100)%nat with (length calls - 100 + 1)%nat by lia.
      rewrite drop_app_le by (rewrite length_map; lia). reflexivity.
    + intros Hin. apply Hc.
      assert (Hsub : In (call_key c) (map_keys (memoryCache (run_sets calls (mkState [] ls))))).
      { destruct (memoryCache (run_sets calls (mkState [] ls))); [exact Hin | right; exact Hin]. }
      rewrite IH in Hsub. apply list_elem_of_In in Hsub. apply list_elem_of_In.
      eapply subseteq_drop; eassumption.
  - assert (Hlt : (length calls < 100)%nat) by lia.
    rewrite map_keys_set_fresh.
    + rewrite IH.
      replace (length calls - 100)%nat with 0%nat by lia.
      replace (length calls + 1 - 100)%nat with 0%nat by lia. reflexivity.
    + rewrite IH. replace (length calls - 100)%nat with 0%nat by lia. exact Hc.
Qed.

(** C6. After any sequence of [set] calls on a fresh store the memory
    layer holds at most [MAX_MEMORY_ITEMS] = 100 entries; a further [set]
    on a full layer drops exactly the first binding of the map, the one
    inserted longest ago, before it writes its own, and drops nothing
    otherwise; no read of an entry enters the choice, and with pairwise
    distinct keys the layer holds the last hundred keys in call order. *)
Theorem memory_layer_bounded_fifo :
  forall (ls : gmap string StorageItem) (calls : list SetCall),
    let st := run_sets calls (mkState [] ls) in
    map_size (memoryCache st) <= MAX_MEMORY_ITEMS
    /\ MAX_MEMORY_ITEMS = 100
    /\ (forall c,
          memoryCache (do_set c st)
          = map_set (call_key c) (call_entry c)
              (if MAX_MEMORY_ITEMS <=? map_size (memoryCache st)
               then tl (memoryCache st) else memoryCache st))
    /\ (NoDup (map call_key calls) ->
        map_keys (memoryCache st) = drop (length calls - 100) (map call_key calls)).
Proof.
  intros ls calls st. subst st. split; [apply run_sets_size_bound|].
  split; [reflexivity|]. split.
  - intros c. unfold do_set, call_key, call_entry.
    apply set_memoryCache, run_sets_nonempty_keys.
  - apply run_sets_fifo.
Qed.
End Capacity.

(** C6, at a hundred and one calls with keys of their own: the first key
    is gone, the other hundred are held in call order. *)
Lemma memory_layer_bounded_fifo_witness :
  let calls := map Sample.nth_call (seq 0 101) in
  NoDup (map APICache.call_key calls)
  /\ APICache.map_keys
       (APICache.memoryCache (APICache.run_sets calls (APICache.mkState [] ∅)))
     = drop (length calls - 100) (map APICache.call_key calls).
Proof.
  intros calls.
  assert (Hnodup : NoDup (map APICache.call_key calls))
    by (apply (bool_decide_unpack _); vm_compute; exact I).
  split; [exact Hnodup|].
  exact (proj2 (proj2 (proj2 (memory_layer_bounded_fifo ∅ calls))) Hnodup).
Defined.

(** ** Freshness and expiry *)

Section Expiry.
Import APICache.

Lemma set_memory_entry endpoint value params ttl t_mem t_ls accepts st :
  map_get (generateKey endpoint params)
    (memoryCache (set endpoint value params ttl t_mem t_ls accepts st))
  = Some (mkEntry value t_mem (default DEFAULT_TTL ttl)).
Proof. unfold set. cbn [memoryCache]. apply map_get_set_eq. Qed.

Lemma set_localStorage endpoint value params ttl t_mem t_ls accepts st :
  localStorage (set endpoint value params ttl t_mem t_ls accepts st)
  = if persists value accepts
    then <[generateKey endpoint params :=
             EntryText (mkEntry (reparse value) t_ls (default DEFAULT_TTL ttl))]>
           (localStorage st)
    else localStorage st.
Proof.
  unfold set, persists. cbn [localStorage].
  destruct (stringify value); reflexivity.
Qed.

(** A key bound in neither layer reads as [null] and the store stays as
    it is. *)
Lemma get_unset endpoint params n1 n2 st :
  map_get (generateKey endpoint params) (memoryCache st) = None ->
  localStorage st !! generateKey endpoint params = None ->
  get endpoint params n1 n2 st = (JNull, st).
Proof. intros Hmem Hls. unfold get. now rewrite Hmem, Hls. Qed.

(** Whatever [get] returns is [null] or the data of an entry that is
    valid at the clock value read for its layer. *)
Lemma get_serves_valid_entries endpoint params n1 n2 st :
  fst (get endpoint params n1 n2 st) = JNull
  \/ (exists e, map_get (generateKey endpoint params) (memoryCache st) = Some e
                /\ isValidEntry n1 e = true
                /\ fst (get endpoint params n1 n2 st) = data e)
  \/ (exists e, localStorage st !! generateKey endpoint params = Some (EntryText e)
                /\ isValidEntry n2 e = true
                /\ fst (get endpoint params n1 n2 st) = data e).
Proof.
  unfold get.
  destruct (map_get (generateKey endpoint params) (memoryCache st)) as [em|] eqn:Hmem.
  - destruct (isValidEntry n1 em) eqn:Hvalid; [right; left; eauto|].
    destruct (localStorage st !! generateKey endpoint params) as [[el|]|] eqn:Hls; auto.
    destruct (isValidEntry n2 el) eqn:Hvalid'; [right; right; eauto | auto].
  - destruct (localStorage st !! generateKey endpoint params) as [[el|]|] eqn:Hls; auto.
    destruct (isValidEntry n2 el) eqn:Hvalid'; [right; right; eauto | auto].
Qed.

(** A read that finds no valid entry under the key: [null] comes back,
    the memory layer is as it was, and the storage item, if it was an
    entry, is removed. *)
Lemma get_finds_only_expired :
  forall st endpoint params n1 n2,
    (forall e, map_get (generateKey endpoint params) (memoryCache st) = Some e ->
               isValidEntry n1 e = false) ->
    (forall e, localStorage st !! generateKey endpoint params = Some (EntryText e) ->
               isValidEntry n2 e = false) ->
    fst (get endpoint params n1 n2 st) = JNull
    /\ memoryCache (snd (get endpoint params n1 n2 st)) = memoryCache st
    /\ (forall e, localStorage st !! generateKey endpoint params = Some (EntryText e) ->
                  localStorage (snd (get endpoint params n1 n2 st))
                    !! generateKey endpoint params = None)
    /\ (forall k, k <> generateKey endpoint params ->
                  localStorage (snd (get endpoint params n1 n2 st)) !! k
                  = localStorage st !! k).
Proof.
  intros st endpoint params n1 n2 Hmem Hls. unfold get.
  assert (Hfrom :
    forall r,
      r = match localStorage st !! generateKey endpoint params with
          | Some (EntryText parsed) =>
              if isValidEntry n2 parsed
              then (data parsed,
                    {| memoryCache := map_set (generateKey endpoint params) parsed (memoryCache st);
                       localStorage := localStorage st |})
              else (JNull,
                    {| memoryCache := memoryCache st;
                       localStorage := delete (generateKey endpoint params) (localStorage st) |})
          | Some Unparsable => (JNull, st)
          | None => (JNull, st)
          end ->
      fst r = JNull
      /\ memoryCache (snd r) = memoryCache st
      /\ (forall e, localStorage st !! generateKey endpoint params = Some (EntryText e) ->
                    localStorage (snd r) !! generateKey endpoint params = None)
      /\ (forall k, k <> generateKey endpoint params ->
                    localStorage (snd r) !! k = localStorage st !! k)).
  { intros r ->.
    destruct (localStorage st !! generateKey endpoint params) as [[el|]|] eqn:E.
    - rewrite (Hls el eq_refl). cbn [fst snd memoryCache localStorage].
      repeat split; intros.
      + apply lookup_delete_eq.
      + now apply lookup_delete_ne.
    - repeat split; intros; congruence.
    - repeat split; intros; congruence. }
  destruct (map_get (generateKey endpoint params) (memoryCache st)) as [em|] eqn:E.
  - rewrite (Hmem em eq_refl). now apply Hfrom.
  - now apply Hfrom.
Qed.

(** C5, as the code has it.  When the entries [get] finds under the key
    are no longer valid ([now - timestamp >= ttl]) it returns [null],
    never the expired data, and removes the expired entry from
    [localStorage] as part of the read; the memory layer is left as it
    was, the expired entry included. *)
Theorem get_expired :
  forall st endpoint params n1 n2,
    (forall e, map_get (generateKey endpoint params) (memoryCache st) = Some e ->
               isValidEntry n1 e = false) ->
    (forall e, localStorage st !! generateKey endpoint params = Some (EntryText e) ->
               isValidEntry n2 e = false) ->
    fst (get endpoint params n1 n2 st) = JNull
    /\ memoryCache (snd (get endpoint params n1 n2 st)) = memoryCache st
    /\ (forall e, localStorage st !! generateKey endpoint params = Some (EntryText e) ->
                  localStorage (snd (get endpoint params n1 n2 st))
                    !! generateKey endpoint params = None)
    /\ (forall k, k <> generateKey endpoint params ->
                  localStorage (snd (get endpoint params n1 n2 st)) !! k
                  = localStorage st !! k).
Proof. exact get_finds_only_expired. Qed.

(** C5 at a store holding one entry written at time 0 with a lifetime of
    10 ms, read at time 10. *)
Lemma get_expired_witness :
  fst (get "/users" None 10 10
         (set "/users" (JStr "v") None (Some 10) 0 0 true empty)) = JNull
  /\ memoryCache (snd (get "/users" None 10 10
                         (set "/users" (JStr "v") None (Some 10) 0 0 true empty)))
     = memoryCache (set "/users" (JStr "v") None (Some 10) 0 0 true empty).
Proof.
  pose proof (get_expired (set "/users" (JStr "v") None (Some 10) 0 0 true empty)
                "/users" None 10 10) as H.
  assert (Hmem : forall e,
             map_get (generateKey "/users" None)
               (memoryCache (set "/users" (JStr "v") None (Some 10) 0 0 true empty)) = Some e ->
             isValidEntry 10 e = false).
  { intros e. rewrite set_memory_entry. intros [= <-]. reflexivity. }
  assert (Hls : forall e,
             localStorage (set "/users" (JStr "v") None (Some 10) 0 0 true empty)
               !! generateKey "/users" None = Some (EntryText e) ->
             isValidEntry 10 e = false).
  { intros e. rewrite set_localStorage. cbn [persists stringify].
    replace ((Z.of_nat (String.length (quote "v")) <? 100000) && true) with true by reflexivity.
    rewrite lookup_insert_eq. intros [= <-]. reflexivity. }
  destruct (H Hmem Hls) as (Hnull & Hkeep & _). split; assumption.
Defined.

(** C5 as stated fails: after a read that finds the entry expired, the
    entry is gone from [localStorage] but still bound in the memory
    layer. *)
Lemma expired_entry_stays_in_memory :
  let st := set "/users" (JStr "v") None (Some 10) 0 0 true empty in
  let after := snd (get "/users" None 10 10 st) in
  isValidEntry 10 (mkEntry (JStr "v") 0 10) = false
  /\ map_get (generateKey "/users" None) (memoryCache st) = Some (mkEntry (JStr "v") 0 10)
  /\ localStorage st !! generateKey "/users" None = Some (EntryText (mkEntry (JStr "v") 0 10))
  /\ fst (get "/users" None 10 10 st) = JNull
  /\ localStorage after !! generateKey "/users" None = None
  /\ map_get (generateKey "/users" None) (memoryCache after) = Some (mkEntry (JStr "v") 0 10).
Proof. vm_compute. repeat split. Qed.

(** C4, as the code has it.  For a lifetime [ttl > 0], a [get] with the
    arguments of the [set], read before [ttl] has elapsed since the
    write, returns the stored value.  Once [ttl] has elapsed since the
    write, [get] returns [null], which is also what a store that never
    saw the key returns, provided the write reached [localStorage] too
    or [localStorage] held nothing under the key before the write. *)
Theorem set_then_get :
  forall st endpoint params value ttl t_mem t_ls accepts,
    0 < ttl ->
    t_mem <= t_ls ->
    (forall n1 n2,
        n1 - t_mem < ttl ->
        fst (get endpoint params n1 n2
               (set endpoint value params (Some ttl) t_mem t_ls accepts st)) = value)
    /\ (forall n1 n2,
        t_ls + ttl <= n1 ->
        n1 <= n2 ->
        persists value accepts = true
        \/ localStorage st !! generateKey endpoint params = None ->
        fst (get endpoint params n1 n2
               (set endpoint value params (Some ttl) t_mem t_ls accepts st)) = JNull
        /\ fst (get endpoint params n1 n2
                  (set endpoint value params (Some ttl) t_mem t_ls accepts st))
           = fst (get endpoint params n1 n2 empty)).
Proof.
  intros st endpoint params value ttl t_mem t_ls accepts Hpos Hclock. split.
  - intros n1 n2 Hfresh.
    now rewrite (get_after_set_shared_key endpoint params endpoint params).
  - intros n1 n2 Helapsed Hmono Hstorage.
    assert (Hnull :
      fst (get endpoint params n1 n2
             (set endpoint value params (Some ttl) t_mem t_ls accepts st)) = JNull).
    { apply get_finds_only_expired.
      - intros e. rewrite set_memory_entry. intros [= <-].
        unfold isValidEntry. cbn [timestamp APICache.ttl default].
        destruct (Z.ltb_spec (n1 - t_mem) ttl); [lia | reflexivity].
      - intros e. rewrite set_localStorage.
        destruct (persists value accepts) eqn:Hp.
        + rewrite lookup_insert_eq. intros [= <-].
          unfold isValidEntry. cbn [timestamp APICache.ttl default].
          destruct (Z.ltb_spec (n2 - t_ls) ttl); [lia | reflexivity].
        + destruct Hstorage as [Hyes|Hnone]; [discriminate|].
          rewrite Hnone. discriminate. }
    split; [exact Hnull|].
    rewrite Hnull. symmetry.
    now rewrite get_unset.
Qed.

(** C4 at a fresh store: a value written at time 0 with a lifetime of 10
    ms reads back at time 9 and is absent at time 10. *)
Lemma set_then_get_witness :
  fst (get "/users" None 9 9 (set "/users" (JStr "v") None (Some 10) 0 0 true empty))
  = JStr "v"
  /\ fst (get "/users" None 10 10 (set "/users" (JStr "v") None (Some 10) 0 0 true empty))
     = JNull.
Proof.
  assert (Hpos : 0 < 10) by lia.
  assert (Hclock : 0 <= 0) by lia.
  destruct (set_then_get empty "/users" None (JStr "v") 10 0 0 true Hpos Hclock)
    as [Hfresh Hstale].
  split.
  - apply Hfresh. lia.
  - apply Hstale; [lia | lia | left; reflexivity].
Defined.

(** C4 as stated fails.  A first [set] stores a small value for an hour
    in both layers; a second [set] for the same key stores a value of
    100 KB for one second, which only the memory layer takes.  Five
    seconds later the one-second lifetime has long elapsed, and [get]
    returns the value of the first [set] instead of [null]. *)
Lemma get_after_ttl_serves_older_value :
  let st1 := set "/users" (JStr "old") None (Some 3600000) 0 0 true empty in
  let st2 := set "/users" Sample.big_value None (Some 1000) 10 10 true st1 in
  0 < 1000
  /\ 10 + 1000 <= 5000
  /\ fst (get "/users" None 10 10 st2) = Sample.big_value
  /\ fst (get "/users" None 5000 5000 st2) = JStr "old"
  /\ JStr "old" <> JNull.
Proof.
  intros st1 st2.
  assert (Hls : localStorage st2 = localStorage st1).
  { subst st2. rewrite set_localStorage.
    replace (persists Sample.big_value true) with false by (vm_compute; reflexivity).
    reflexivity. }
  split; [lia|]. split; [lia|]. split; [|split; [|discriminate]].
  - subst st2. now rewrite (get_after_set_shared_key "/users" None "/users" None).
  - unfold get. rewrite Hls. subst st2. rewrite set_memory_entry.
    replace (isValidEntry 5000 (mkEntry Sample.big_value 10 (default DEFAULT_TTL (Some 1000))))
      with false by reflexivity.
    subst st1. rewrite set_localStorage.
    replace (persists (JStr "old") true) with true by reflexivity.
    rewrite lookup_insert_eq. reflexivity.
Qed.
End Expiry.

(** ** The decorator *)

Section DecoratorContract.
Import APICache Decorator.
Context {W : Type}.
Variable fn : list JSValue -> W -> Completion JSValue * W.
Variable endpoint : string.
Variable ttl : option Z.

Lemma is_success_truthy result : is_success result = true -> truthy result = true.
Proof. unfold is_success. now intros [? _]%andb_prop. Qed.

Lemma failure_marker_not_success fields :
  lookup_field "success" fields = Some (JBool false) -> is_success (JObj fields) = false.
Proof.
  intros Hmarker. unfold is_success. rewrite Hmarker. cbn.
  now rewrite andb_false_r.
Qed.

(** A call either is served by the store without touching the wrapped
    operation, or invokes it once with the caller's arguments and
    settles as it settled. *)
Lemma withCache_passes_through args clk st w :
  (invoked (withCache fn endpoint ttl args clk st w) = []
   /\ world (withCache fn endpoint ttl args clk st w) = w)
  \/ (invoked (withCache fn endpoint ttl args clk st w) = [args]
      /\ outcome (withCache fn endpoint ttl args clk st w) = fst (fn args w)
      /\ world (withCache fn endpoint ttl args clk st w) = snd (fn args w)).
Proof.
  unfold withCache.
  destruct (get endpoint (params_of args) (get_now_mem clk) (get_now_ls clk) st)
    as [cached st1].
  destruct (truthy cached); [left; split; reflexivity|].
  right. destruct (fn args w) as [[result|m] w']; repeat split.
Qed.

Lemma withCache_miss args clk st w result w' :
  truthy (fst (get endpoint (params_of args) (get_now_mem clk) (get_now_ls clk) st)) = false ->
  fn args w = (Normal result, w') ->
  withCache fn endpoint ttl args clk st w
  = mkRun (Normal result)
      (if is_success result
       then set endpoint result (params_of args) ttl
              (set_now_mem clk) (set_now_ls clk) (storage_accepts clk)
              (snd (get endpoint (params_of args) (get_now_mem clk) (get_now_ls clk) st))
       else snd (get endpoint (params_of args) (get_now_mem clk) (get_now_ls clk) st))
      w' [args].
Proof.
  intros Hmiss Hfn. unfold withCache.
  destruct (get endpoint (params_of args) (get_now_mem clk) (get_now_ls clk) st)
    as [cached st1].
  cbn [fst snd] in *. now rewrite Hmiss, Hfn.
Qed.

Lemma withCache_hit args clk st w :
  truthy (fst (get endpoint (params_of args) (get_now_mem clk) (get_now_ls clk) st)) = true ->
  withCache fn endpoint ttl args clk st w
  = mkRun (Normal (fst (get endpoint (params_of args) (get_now_mem clk) (get_now_ls clk) st)))
      (snd (get endpoint (params_of args) (get_now_mem clk) (get_now_ls clk) st)) w [].
Proof.
  intros Hhit. unfold withCache.
  destruct (get endpoint (params_of args) (get_now_mem clk) (get_now_ls clk) st)
    as [cached st1].
  cbn [fst snd] in *. now rewrite Hhit.
Qed.

(** C7.  The decorator never stores a result whose [success] marker is
    false: after such a call the store is what the look-up left.  When a
    first call missed and stored a successful result, a second call with
    the same arguments, made before the lifetime has elapsed, settles
    with that result and does not invoke the wrapped operation.  When
    the wrapped operation is invoked, it receives the caller's arguments
    as they are and its outcome is handed back as it is. *)
Theorem withCache_contract :
  (forall args clk st w fields w',
      fn args w = (Normal (JObj fields), w') ->
      lookup_field "success" fields = Some (JBool false) ->
      cache (withCache fn endpoint ttl args clk st w)
      = snd (get endpoint (params_of args) (get_now_mem clk) (get_now_ls clk) st))
  /\ (forall args clk1 clk2 st w result w',
      truthy (fst (get endpoint (params_of args) (get_now_mem clk1) (get_now_ls clk1) st))
      = false ->
      fn args w = (Normal result, w') ->
      is_success result = true ->
      get_now_mem clk2 - set_now_mem clk1 < default DEFAULT_TTL ttl ->
      outcome (withCache fn endpoint ttl args clk1 st w) = Normal result
      /\ invoked (withCache fn endpoint ttl args clk1 st w) = [args]
      /\ outcome (withCache fn endpoint ttl args clk2
                    (cache (withCache fn endpoint ttl args clk1 st w))
                    (world (withCache fn endpoint ttl args clk1 st w)))
         = Normal result
      /\ invoked (withCache fn endpoint ttl args clk2
                    (cache (withCache fn endpoint ttl args clk1 st w))
                    (world (withCache fn endpoint ttl args clk1 st w)))
         = []
      /\ world (withCache fn endpoint ttl args clk2
                  (cache (withCache fn endpoint ttl args clk1 st w))
                  (world (withCache fn endpoint ttl args clk1 st w)))
         = w')
  /\ (forall args clk st w,
      (invoked (withCache fn endpoint ttl args clk st w) = []
       /\ world (withCache fn endpoint ttl args clk st w) = w)
      \/ (invoked (withCache fn endpoint ttl args clk st w) = [args]
          /\ outcome (withCache fn endpoint ttl args clk st w) = fst (fn args w)
          /\ world (withCache fn endpoint ttl args clk st w) = snd (fn args w))).
Proof.
  split; [|split].
  - intros args clk st w fields w' Hfn Hmarker.
    destruct (truthy (fst (get endpoint (params_of args) (get_now_mem clk) (get_now_ls clk) st)))
      eqn:Hcached.
    + now rewrite withCache_hit.
    + rewrite (withCache_miss args clk st w _ _ Hcached Hfn).
      now rewrite (failure_marker_not_success fields Hmarker).
  - intros args clk1 clk2 st w result w' Hmiss Hfn Hok Hfresh.
    rewrite (withCache_miss args clk1 st w _ _ Hmiss Hfn), Hok. cbn [outcome invoked cache world].
    assert (Hget :
      get endpoint (params_of args) (get_now_mem clk2) (get_now_ls clk2)
        (set endpoint result (params_of args) ttl
           (set_now_mem clk1) (set_now_ls clk1) (storage_accepts clk1)
           (snd (get endpoint (params_of args) (get_now_mem clk1) (get_now_ls clk1) st)))
      = (result,
         set endpoint result (params_of args) ttl
           (set_now_mem clk1) (set_now_ls clk1) (storage_accepts clk1)
           (snd (get endpoint (params_of args) (get_now_mem clk1) (get_now_ls clk1) st))))
      by now apply get_after_set_shared_key.
    rewrite withCache_hit; rewrite Hget; cbn [fst snd outcome invoked world].
    + repeat split.
    + now apply is_success_truthy.
  - apply withCache_passes_through.
Qed.
End DecoratorContract.

(** C7 at an operation that counts its invocations: the second call is
    answered from the store and the count stays at one; an operation
    that reports a failure leaves the store empty. *)
Lemma withCache_contract_witness :
  let clk := Decorator.mkClock 0 0 0 0 true in
  let first :=
    Decorator.withCache Sample.counting_fn "/users" None [JNum 1] clk APICache.empty 0%nat in
  let second :=
    Decorator.withCache Sample.counting_fn "/users" None [JNum 1] clk
      (Decorator.cache first) (Decorator.world first) in
  Decorator.invoked first = [[JNum 1]]
  /\ Decorator.invoked second = []
  /\ Decorator.outcome second = Decorator.outcome first
  /\ Decorator.world second = 1%nat
  /\ Decorator.cache
       (Decorator.withCache Sample.failing_fn "/users" None [JNum 1] clk APICache.empty 0%nat)
     = APICache.empty.
Proof.
  intros clk first second.
  destruct (withCache_contract Sample.counting_fn "/users" None) as (_ & Hsecond & _).
  destruct (withCache_contract Sample.failing_fn "/users" None) as (Hfail & _ & _).
  assert (Hmiss :
    truthy (fst (APICache.get "/users" (Decorator.params_of [JNum 1])
                   (Decorator.get_now_mem clk) (Decorator.get_now_ls clk) APICache.empty))
    = false) by reflexivity.
  assert (Hfn : Sample.counting_fn [JNum 1] 0%nat
                = (Normal (JObj [("data", JArr [JNum 1]); ("success", JBool true)]), 1%nat))
    by reflexivity.
  assert (Hok : Decorator.is_success (JObj [("data", JArr [JNum 1]); ("success", JBool true)])
                = true) by reflexivity.
  assert (Hfresh : Decorator.get_now_mem clk - Decorator.set_now_mem clk
                   < default APICache.DEFAULT_TTL None) by (vm_compute; reflexivity).
  destruct (Hsecond [JNum 1] clk clk APICache.empty 0%nat _ _ Hmiss Hfn Hok Hfresh)
    as (Hout1 & Hinv1 & Hout2 & Hinv2 & Hworld2).
  assert (Hfailfn : Sample.failing_fn [JNum 1] 0%nat
                    = (Normal (JObj [("data", JObj []); ("success", JBool false)]), 1%nat))
    by reflexivity.
  assert (Hmarker : lookup_field "success" [("data", JObj []); ("success", JBool false)]
                    = Some (JBool false)) by reflexivity.
  split; [exact Hinv1|]. split; [exact Hinv2|].
  split; [subst second first; rewrite Hout2, Hout1; reflexivity|].
  split; [exact Hworld2|].
  rewrite (Hfail [JNum 1] clk APICache.empty 0%nat _ _ Hfailfn Hmarker). reflexivity.
Defined.

(** ** The QR envelope *)

Section QRRoundTrip.
Import QRCodec.

Lemma or_empty_blank o : is_blank o = true -> or_empty o = JStr "".
Proof.
  destruct o as [t|]; [|reflexivity]. simpl.
  intros ->%String.eqb_eq. reflexivity.
Qed.

Lemma truthy_text t : t <> EmptyString -> truthy (JStr t) = true.
Proof. intros Hne. simpl. destruct (String.eqb_spec t ""); [contradiction | reflexivity]. Qed.

(** A payload whose tag is not ["user-profile"] is refused. *)
Lemma wrong_tag_refused parsed :
  (forall tag, get_prop parsed "type" = Normal tag -> is_string "user-profile" tag = false) ->
  exists error, handleScanResult (Normal parsed) = Refused error.
Proof.
  intros Htag. unfold handleScanResult, validate. cbn [bind].
  destruct (get_prop parsed "type") as [tag|m] eqn:E; cbn [bind].
  - rewrite (Htag tag eq_refl). cbn. eauto.
  - eauto.
Qed.

(** A payload whose data has no truthy [email] is refused, whatever else
    it carries. *)
Lemma missing_email_refused parsed :
  (forall d e, get_prop parsed "data" = Normal d -> get_prop d "email" = Normal e ->
               truthy e = false) ->
  exists error, handleScanResult (Normal parsed) = Refused error.
Proof.
  intros Hemail. unfold handleScanResult, validate. cbn [bind].
  destruct (get_prop parsed "type") as [tag|m]; cbn [bind]; [|eauto].
  destruct (negb (is_string "user-profile" tag)); [eauto|].
  destruct (get_prop parsed "data") as [d|m] eqn:Hd; cbn [bind]; [|eauto].
  destruct (negb (truthy d)); [eauto|].
  unfold field.
  destruct (get_prop d "fullName") as [fullName|m]; cbn [bind]; [|eauto].
  destruct (get_prop d "email") as [e|m] eqn:He; cbn [bind]; [|eauto].
  destruct (get_prop d "phoneNumber") as [phoneNumber|m]; cbn [bind]; [|eauto].
  destruct (get_prop d "bio") as [bio|m]; cbn [bind]; [|eauto].
  destruct (get_prop d "avatarUrl") as [avatarUrl|m]; cbn [bind]; [|eauto].
  destruct (get_prop d "dateOfBirth") as [dateOfBirth|m]; cbn [bind]; [|eauto].
  destruct (get_prop d "location") as [location|m]; cbn [bind]; [|eauto].
  assert (Hfalsy : truthy (or_else e (JStr "")) = false).
  { unfold or_else. now rewrite (Hemail d e eq_refl He). }
  rewrite Hfalsy. rewrite orb_true_r. eauto.
Qed.

(** C8.  A profile with a full name and an email and with every optional
    field empty, encoded into the payload and decoded again, comes back
    with its full name and email and with the empty string in every
    other field.  Decoding fails for every payload whose tag is not
    ["user-profile"], and for every payload whose data has no non-empty
    email (absent, [null], the empty string or another falsy value),
    even when the full name is there. *)
Theorem qr_round_trip :
  (forall user,
      Server.fullName user <> EmptyString ->
      Server.email user <> EmptyString ->
      bare user = true ->
      handleScanResult (payload user)
      = Accepted (mkForm (JStr (Server.fullName user)) (JStr (Server.email user))
                    (JStr "") (JStr "") (JStr "") (JStr "") (JStr "")))
  /\ (forall parsed,
      (forall tag, get_prop parsed "type" = Normal tag ->
                   is_string "user-profile" tag = false) ->
      exists error, handleScanResult (Normal parsed) = Refused error)
  /\ (forall parsed,
      (forall d e, get_prop parsed "data" = Normal d -> get_prop d "email" = Normal e ->
                   truthy e = false) ->
      exists error, handleScanResult (Normal parsed) = Refused error).
Proof.
  split; [|split; [exact wrong_tag_refused | exact missing_email_refused]].
  intros user Hname Hemail Hbare. unfold bare in Hbare.
  apply andb_prop in Hbare as [Hbare Hlocation].
  apply andb_prop in Hbare as [Hbare Hbirth].
  apply andb_prop in Hbare as [Hbare Havatar].
  apply andb_prop in Hbare as [Hphone Hbio].
  unfold payload, qrData.
  rewrite (or_empty_blank _ Hphone), (or_empty_blank _ Hbio),
    (or_empty_blank _ Havatar), (or_empty_blank _ Hlocation).
  assert (Hdate :
    (if truthy (Server.nullable (Server.dateOfBirth user))
     then JStr (before_T (default "" (Server.dateOfBirth user)))
     else JStr "") = JStr "").
  { destruct (Server.dateOfBirth user) as [t|]; [|reflexivity].
    simpl in Hbirth. apply String.eqb_eq in Hbirth. now subst t. }
  rewrite Hdate.
  unfold handleScanResult, validate, field. cbn.
  assert (Hn : or_else (JStr (Server.fullName user)) (JStr "") = JStr (Server.fullName user))
    by (unfold or_else; now rewrite (truthy_text _ Hname)).
  assert (He : or_else (JStr (Server.email user)) (JStr "") = JStr (Server.email user))
    by (unfold or_else; now rewrite (truthy_text _ Hemail)).
  rewrite Hn, He, (truthy_text _ Hname), (truthy_text _ Hemail). reflexivity.
Qed.

(** C8 at the sample profile, at an envelope with another tag and at an
    envelope whose data has a full name and no email. *)
Lemma qr_round_trip_witness :
  handleScanResult (payload Sample.ada)
  = Accepted (mkForm (JStr "Ada Lovelace") (JStr "ada@example.org")
                (JStr "") (JStr "") (JStr "") (JStr "") (JStr ""))
  /\ (exists error,
       handleScanResult
         (Normal (JObj [("type", JStr "contact"); ("data", JObj [("email", JStr "a@b.c")])]))
       = Refused error)
  /\ (exists error,
       handleScanResult
         (Normal (JObj [("type", JStr "user-profile");
                        ("data", JObj [("fullName", JStr "Ada Lovelace")])]))
       = Refused error).
Proof.
  destruct qr_round_trip as (Hround & Htag & Hemail).
  split; [|split].
  - apply (Hround Sample.ada); [discriminate | discriminate | reflexivity].
  - apply Htag. intros tag [= <-]. reflexivity.
  - apply Hemail. intros d e [= <-] [= <-]. reflexivity.
Defined.
End QRRoundTrip.

(** ** Overlapping page loads *)

Section PageLoads.
Import UserProfileAPI App.

(** A failed response leaves the list and the descriptor as they were. *)
Lemma failed_load_keeps_page response now st :
  success response = false ->
  shown (snd (loadUsers_settle response now st)) = shown st.
Proof. intros Hfail. unfold loadUsers_settle. now rewrite Hfail. Qed.

(** C9, as the code has it.  With a page-1 load in flight and a
    navigation to page 2 issued on top of it, the list and the
    descriptor shown once both responses have arrived are those of the
    response that arrived last: page 2 when page 1 answers first, page 1
    when page 2 answers first.  No request sequence number is kept. *)
Theorem last_response_wins :
  forall st listed1 descriptor1 listed2 descriptor2 now1 now2,
    shown (snd (loadUsers_settle (page_response listed2 descriptor2) now2
             (snd (loadUsers_settle (page_response listed1 descriptor1) now1
                (navigate 2 (loadUsers_dispatch st))))))
    = (listed2, descriptor2)
    /\ shown (snd (loadUsers_settle (page_response listed1 descriptor1) now1
                (snd (loadUsers_settle (page_response listed2 descriptor2) now2
                   (navigate 2 (loadUsers_dispatch st))))))
       = (listed1, descriptor1)
    /\ currentPage (snd (loadUsers_settle (page_response listed1 descriptor1) now1
                      (snd (loadUsers_settle (page_response listed2 descriptor2) now2
                         (navigate 2 (loadUsers_dispatch st))))))
       = 2.
Proof. intros. repeat split. Qed.

(** C9 as stated fails: page 2 answers first, the slower page-1 response
    arrives afterwards and replaces what is shown, while the page
    cursor stays at 2. *)
Lemma stale_page_is_shown :
  let page1 := page_response (JArr [Server.user_json Sample.ada]) (Sample.descriptor 1) in
  let page2 := page_response (JArr [Server.user_json Sample.bob]) (Sample.descriptor 2) in
  let in_flight := navigate 2 (loadUsers_dispatch initial) in
  let final := snd (loadUsers_settle page1 200 (snd (loadUsers_settle page2 100 in_flight))) in
  currentPage final = 2
  /\ isLoading final = false
  /\ shown final = (JArr [Server.user_json Sample.ada], Sample.descriptor 1)
  /\ Server.user_json Sample.ada <> Server.user_json Sample.bob.
Proof. repeat split. discriminate. Qed.
End PageLoads.

(** ** The REST boundary *)

Section Boundary.
Import UserProfileAPI Server.

Lemma reparse_user_json u : reparse (user_json u) = user_json u.
Proof.
  destruct u as [i n e phone b a dob loc c up].
  destruct phone, b, a, dob, loc; reflexivity.
Qed.

Lemma map_reparse_user_json rows : map reparse (map user_json rows) = map user_json rows.
Proof.
  induction rows as [|u rows IH]; [reflexivity|].
  cbn [map]. now rewrite reparse_user_json, IH.
Qed.

Lemma In_insert_desc u v sorted : In u (insert_desc v sorted) -> u = v \/ In u sorted.
Proof.
  induction sorted as [|w sorted IH]; simpl.
  - intros [<-|[]]. now left.
  - destruct (String.leb (createdAt w) (createdAt v)); simpl.
    + intros [<-|[<-|Hin]]; auto.
    + intros [<-|Hin]; auto. destruct (IH Hin); auto.
Qed.

Lemma In_newest_first u rows : In u (newest_first rows) -> In u rows.
Proof.
  induction rows as [|v rows IH]; simpl; [auto|].
  intros Hin. apply In_insert_desc in Hin as [->|Hin]; auto.
Qed.

(** The list route answers every request alike. *)
Lemma get_users_ignores_request {DB} `{Prisma DB} req req' (db : DB) :
  get_users req db = get_users req' db.
Proof. reflexivity. Qed.

(** The list operation against the table: a success whose data is the
    bare array of all rows, newest first. *)
Lemma getAllUsers_table page limit search rows :
  getAllUsers serve page limit search rows
  = (mkApiResponse (JArr (map user_json (newest_first rows))) true
       (JStr "Operation completed successfully"), rows).
Proof.
  unfold getAllUsers, fetchWithErrorHandling, serve, app. cbn.
  now rewrite map_reparse_user_json.
Qed.

(** C1 at the failing input.  Asked for page 2 with one profile per page
    and the search text [zzz], over a table of two profiles neither of
    which matches, the list route answers as it answers any request:
    status 200 and the bare array of both profiles.  The client hands
    that array on as [data]; it has neither a [data] nor a [pagination]
    member. *)
Theorem list_route_ignores_page_limit_search :
  (forall page limit search rows,
      fst (getAllUsers serve page limit search rows)
      = fst (getAllUsers serve 1 20 "" rows))
  /\ getAllUsers serve 2 1 "zzz" [Sample.ada; Sample.bob]
     = (mkApiResponse (JArr [user_json Sample.bob; user_json Sample.ada]) true
          (JStr "Operation completed successfully"),
        [Sample.ada; Sample.bob])
  /\ get_prop (JArr [user_json Sample.bob; user_json Sample.ada]) "data" = Normal JUndefined
  /\ get_prop (JArr [user_json Sample.bob; user_json Sample.ada]) "pagination"
     = Normal JUndefined
  /\ includes "zzz" (fullName Sample.ada +:+ email Sample.ada
                     +:+ fullName Sample.bob +:+ email Sample.bob) = false.
Proof.
  split; [intros; now rewrite !getAllUsers_table|].
  split; [now rewrite getAllUsers_table|]. repeat split.
Qed.

(** Outside [getUserById], a response that is not 2xx, a network
    failure and a body that is not JSON all come back as a failure whose
    data is the empty placeholder; nothing is thrown. *)
Lemma fetchWithErrorHandling_failure {S} (fetch : Request -> S -> FetchOutcome * S) req s :
  (forall response, fst (fetch req s) = Settled response -> ok response = false) ->
  success (fst (fetchWithErrorHandling fetch req s)) = false
  /\ data (fst (fetchWithErrorHandling fetch req s)) = empty_placeholder.
Proof.
  intros Hbad. unfold fetchWithErrorHandling.
  destruct (fetch req s) as [[m|response] s']; [split; reflexivity|].
  cbn [fst] in Hbad. rewrite (Hbad response eq_refl). cbn [negb].
  destruct (json response) as [body|m]; [|split; reflexivity].
  destruct (get_prop body "error"); split; reflexivity.
Qed.

(** So do the list, create and update operations, which are that
    wrapper at their own request. *)
Lemma list_create_update_failure {S} (fetch : Request -> S -> FetchOutcome * S) s :
  (forall req response, fst (fetch req s) = Settled response -> ok response = false) ->
  forall page limit search id userData,
    Forall (fun r => success r = false /\ data r = empty_placeholder)
      [fst (getAllUsers fetch page limit search s);
       fst (getAllUsersUnpaginated fetch s);
       fst (searchUsers fetch search page limit s);
       fst (createUser fetch userData s);
       fst (updateUser fetch id userData s)].
Proof.
  intros Hbad page limit search id userData.
  unfold searchUsers, getAllUsers, getAllUsersUnpaginated, createUser, updateUser.
  repeat constructor; apply fetchWithErrorHandling_failure; apply Hbad.
Qed.

(** [deleteUser] turns the same failures into the flag [false]. *)
Lemma deleteUser_failure {S} (fetch : Request -> S -> FetchOutcome * S) id s :
  (forall response,
      fst (fetch (mkRequest DELETE (api ["users"; id]) [] None) s) = Settled response ->
      ok response = false) ->
  success (fst (deleteUser fetch id s)) = false
  /\ data (fst (deleteUser fetch id s)) = JBool false.
Proof.
  intros Hbad. unfold deleteUser.
  destruct (fetchWithErrorHandling_failure fetch _ s Hbad) as [Hfail _].
  destruct (fetchWithErrorHandling fetch _ s) as [response s'].
  cbn [fst] in *. now rewrite Hfail.
Qed.

(** C2 at the failing input.  For an id the table does not hold, the
    server answers 404 with the error text [User not found].  The client
    takes that text as the message; it does not contain [404], so the
    not-found branch of [getUserById] is skipped and the result keeps
    the empty placeholder as its data instead of [null].  And the
    operation can throw: a 500 whose error is the number 404 makes the
    test on the message raise a TypeError. *)
Theorem getUserById_404_keeps_placeholder :
  fst (app (mkRequest GET (api ["users"; "missing"]) [] None) [Sample.ada])
  = mkResponse 404 (Normal (JObj [("error", JStr "User not found")]))
  /\ getUserById serve "missing" [Sample.ada]
     = (Normal (mkApiResponse (JObj []) false (JStr "User not found")), [Sample.ada])
  /\ includes "404" "User not found" = false
  /\ getUserById Sample.numeric_error_fetch "u1" tt
     = (Throw "response.message.includes is not a function", tt).
Proof. repeat split. Qed.
End Boundary.

(** ** Deleting a profile and reloading the page *)

Section DeleteThenReload.
Import UserProfileAPI Server App.

(** No request touches the cache singleton. *)
Lemma browser_fetch_keeps_cache {DB} `{Prisma DB} req (w : World DB) :
  apiCache (snd (browser_fetch req w)) = apiCache w.
Proof. unfold browser_fetch. now destruct (serve req (database w)). Qed.

Lemma fetchWithErrorHandling_keeps_cache {DB} `{Prisma DB} req (w : World DB) :
  apiCache (snd (fetchWithErrorHandling browser_fetch req w)) = apiCache w.
Proof.
  pose proof (browser_fetch_keeps_cache req w) as Hkeep.
  unfold fetchWithErrorHandling.
  destruct (browser_fetch req w) as [[m|response] w']; [exact Hkeep|].
  destruct (json response) as [body|m]; [|exact Hkeep].
  destruct (negb (ok response)); [|exact Hkeep].
  destruct (get_prop body "error"); exact Hkeep.
Qed.

Lemma deleteUser_keeps_cache {DB} `{Prisma DB} target (w : World DB) :
  apiCache (snd (deleteUser browser_fetch target w)) = apiCache w.
Proof.
  pose proof (fetchWithErrorHandling_keeps_cache
                (mkRequest DELETE (api ["users"; target]) [] None) w) as Hkeep.
  unfold deleteUser.
  now destruct (fetchWithErrorHandling browser_fetch _ w).
Qed.

Lemma loadUsers_keeps_cache {DB} `{Prisma DB} page search now st (w : World DB) :
  apiCache (snd (loadUsers browser_fetch page search now st w)) = apiCache w.
Proof.
  pose proof (fetchWithErrorHandling_keeps_cache
                (mkRequest GET (api ["users"])
                   [("page", pretty page); ("limit", pretty 20); ("search", trim search)] None)
                w) as Hkeep.
  unfold loadUsers, getAllUsers.
  now destruct (fetchWithErrorHandling browser_fetch _ w).
Qed.

Lemma handleDeleteUser_keeps_cache {DB} `{Prisma DB} now_delete now_load st (w : World DB) :
  apiCache (snd (handleDeleteUser browser_fetch now_delete now_load st w)) = apiCache w.
Proof.
  unfold handleDeleteUser.
  destruct (userToDelete st) as [target|]; [|reflexivity].
  pose proof (deleteUser_keeps_cache (Server.id target) w) as Hdel.
  destruct (deleteUser browser_fetch (Server.id target) w) as [response w1].
  cbn [snd] in Hdel.
  destruct (success response); [|exact Hdel].
  now rewrite loadUsers_keeps_cache.
Qed.

(** [deleteUser] against the table: it succeeds exactly when a row has
    the id, and then the table holds the other rows. *)
Lemma deleteUser_table target rows store :
  deleteUser browser_fetch target (mkWorld rows store)
  = if existsb (has_id target) rows
    then (mkApiResponse (JBool true) true (JStr "Operation completed successfully"),
          mkWorld (List.filter (fun u => negb (has_id target u)) rows) store)
    else (mkApiResponse (JBool false) false (JStr "User not found"),
          mkWorld rows store).
Proof.
  unfold deleteUser, fetchWithErrorHandling, browser_fetch, serve, app, delete_user. cbn.
  destruct (existsb (has_id target) rows); reflexivity.
Qed.

Lemma getAllUsers_browser page limit search rows store :
  getAllUsers browser_fetch page limit search (mkWorld rows store)
  = (mkApiResponse (JArr (map user_json (newest_first rows))) true
       (JStr "Operation completed successfully"),
     mkWorld rows store).
Proof.
  unfold getAllUsers, fetchWithErrorHandling, browser_fetch, serve, app. cbn.
  now rewrite map_reparse_user_json.
Qed.

(** C3, as the code has it.  A successful delete leaves the cache store
    as it was: no entry is invalidated, by the client or by the
    coordinator.  The reload that follows asks the server directly,
    without reading the cache store, so the list it returns is the
    table after the deletion and holds no row with the deleted id. *)
Theorem delete_keeps_cache_reload_is_current :
  forall rows store target page search,
    success (fst (deleteUser browser_fetch target (mkWorld rows store))) = true ->
    apiCache (snd (deleteUser browser_fetch target (mkWorld rows store))) = store
    /\ apiCache
         (snd (getAllUsers browser_fetch page 20 search
                 (snd (deleteUser browser_fetch target (mkWorld rows store)))))
       = store
    /\ (forall now_delete now_load st,
          apiCache
            (snd (handleDeleteUser browser_fetch now_delete now_load st (mkWorld rows store)))
          = store)
    /\ exists remaining,
        data (fst (getAllUsers browser_fetch page 20 search
                     (snd (deleteUser browser_fetch target (mkWorld rows store)))))
        = JArr (map user_json remaining)
        /\ Forall (fun u => Server.id u <> target) remaining.
Proof.
  intros rows store target page search Hok.
  split; [now rewrite deleteUser_keeps_cache|].
  split.
  { pose proof (fetchWithErrorHandling_keeps_cache
                  (mkRequest GET (api ["users"])
                     [("page", pretty page); ("limit", pretty 20); ("search", trim search)] None)
                  (snd (deleteUser browser_fetch target (mkWorld rows store)))) as Hkeep.
    unfold getAllUsers. rewrite Hkeep. now rewrite deleteUser_keeps_cache. }
  split; [intros; now rewrite handleDeleteUser_keeps_cache|].
  rewrite deleteUser_table in *.
  destruct (existsb (has_id target) rows); [|discriminate].
  cbn [snd]. rewrite getAllUsers_browser. cbn [fst data].
  eexists. split; [reflexivity|].
  apply Forall_forall. intros u Hin%list_elem_of_In%In_newest_first.
  apply filter_In in Hin as [_ Hother].
  unfold has_id in Hother. intros Heq.
  rewrite Heq, String.eqb_refl in Hother. discriminate.
Qed.

(** C3 at the sample tab: the first profile is deleted, the store is
    untouched and the reloaded list is the second profile alone. *)
Lemma delete_keeps_cache_reload_is_current_witness :
  apiCache (snd (deleteUser browser_fetch "u1" Sample.cached_world))
  = apiCache Sample.cached_world
  /\ exists remaining,
      data (fst (getAllUsers browser_fetch 1 20 ""
                   (snd (deleteUser browser_fetch "u1" Sample.cached_world))))
      = JArr (map user_json remaining)
      /\ Forall (fun u => Server.id u <> "u1") remaining.
Proof.
  assert (Hok : success (fst (deleteUser browser_fetch "u1" Sample.cached_world)) = true)
    by reflexivity.
  destruct (delete_keeps_cache_reload_is_current
              [Sample.ada; Sample.bob] (apiCache Sample.cached_world) "u1" 1 "" Hok)
    as (Hstore & _ & _ & Hlist).
  split; [exact Hstore | exact Hlist].
Defined.

(** C3 as stated fails: the delete of the first profile succeeds, and
    the page that was cached with that profile on it is still served by
    the cache store when the reload is about to start. *)
Lemma cached_page_survives_delete :
  let after := snd (deleteUser browser_fetch "u1" Sample.cached_world) in
  success (fst (deleteUser browser_fetch "u1" Sample.cached_world)) = true
  /\ database after = [Sample.bob]
  /\ fst (APICache.get "/users" (Decorator.params_of Sample.page_args) 1 1 (apiCache after))
     = Sample.cached_page
  /\ get_prop Sample.cached_page "data"
     = Normal (JArr [user_json Sample.bob; user_json Sample.ada])
  /\ Server.id Sample.ada = "u1".
Proof. vm_compute. repeat split. Qed.
End DeleteThenReload.


(** * Further properties of the cache store *)

Section CacheMaintenance.
Import APICache.

Lemma map_get_delete_ne key key' m :
  key <> key' -> map_get key' (map_delete key m) = map_get key' m.
Proof.
  intros Hne. induction m as [|[k x] m IH]; [reflexivity|]. simpl.
  destruct (String.eqb_spec k key) as [->|Hk]; simpl.
  - destruct (String.eqb_spec key key'); [contradiction | reflexivity].
  - now rewrite IH.
Qed.

Lemma map_get_None_not_in key m : ~ In key (map_keys m) -> map_get key m = None.
Proof.
  induction m as [|[k x] m IH]; [reflexivity|]. simpl. intros Hnot.
  destruct (String.eqb_spec k key); [tauto | apply IH; tauto].
Qed.

Lemma map_get_delete_eq key m :
  NoDup (map_keys m) -> map_get key (map_delete key m) = None.
Proof.
  induction m as [|[k x] m IH]; [reflexivity|]. simpl. intros Hnodup.
  apply NoDup_cons in Hnodup as [Hfresh Hnodup].
  destruct (String.eqb_spec k key) as [->|Hk]; simpl.
  - apply map_get_None_not_in. intros Hin. apply Hfresh. now apply list_elem_of_In.
  - destruct (String.eqb_spec k key); [contradiction | now apply IH].
Qed.

Lemma map_set_absent key e m : map_get key m = None -> map_set key e m = m ++ [(key, e)].
Proof.
  induction m as [|[k x] m IH]; [reflexivity|]. simpl.
  destruct (String.eqb k key); [discriminate|]. intros Hnone. now rewrite IH.
Qed.

Lemma map_get_filter (keep : string -> bool) key m :
  map_get key (List.filter (fun b => keep (fst b)) m)
  = if keep key then map_get key m else None.
Proof.
  induction m as [|[k x] m IH]; simpl; [now destruct (keep key)|].
  destruct (keep k) eqn:Hk; simpl.
  - destruct (String.eqb_spec k key) as [->|Hne]; [now rewrite Hk | exact IH].
  - destruct (String.eqb_spec k key) as [->|Hne]; [now rewrite IH, Hk | exact IH].
Qed.

(** Walking the keys of a map and deleting the matching ones leaves
    the bindings whose keys do not match, in their order. *)
Lemma delete_matching_keys (test : string -> bool) kept m :
  Forall (fun b => test (fst b) = false) kept ->
  fold_left (fun acc key => if test key then map_delete key acc else acc)
    (map_keys m) (kept ++ m)
  = kept ++ List.filter (fun b => negb (test (fst b))) m.
Proof.
  revert kept. induction m as [|[k x] m IH]; intros kept Hkept; [reflexivity|].
  cbn [map_keys map fst fold_left List.filter].
  destruct (test k) eqn:Hk; cbn [negb].
  - assert (Hdel : map_delete k (kept ++ (k, x) :: m) = kept ++ m).
    { clear IH. induction kept as [|[k' x'] kept IHk]; simpl.
      - now rewrite String.eqb_refl.
      - inversion Hkept as [|? ? Hk' Hrest]; subst. simpl in Hk'.
        destruct (String.eqb_spec k' k) as [->|Hne]; [congruence|].
        now rewrite IHk. }
    rewrite Hdel. now apply IH.
  - replace (kept ++ (k, x) :: m) with ((kept ++ [(k, x)]) ++ m) by now rewrite <- app_assoc.
    fold (map_keys m). rewrite IH.
    + now rewrite <- app_assoc.
    + apply Forall_app. split; [assumption | now repeat constructor].
Qed.

(** Removing the keys a list names from the storage. *)
Lemma lookup_remove_listed (test : string -> bool) keys (ls : gmap string StorageItem) k :
  fold_left (fun acc key => if test key then delete key acc else acc) keys ls !! k
  = if test k && bool_decide (k ∈ keys) then None else ls !! k.
Proof.
  revert ls. induction keys as [|key keys IH]; intros ls.
  - cbn. now rewrite andb_false_r.
  - cbn [fold_left]. rewrite IH.
    destruct (test k) eqn:Hk; cbn [andb].
    + destruct (decide (k = key)) as [->|Hne].
      * rewrite Hk, lookup_delete_eq.
        rewrite (bool_decide_eq_true_2 (key ∈ key :: keys)) by apply list_elem_of_here.
        now destruct (bool_decide (key ∈ keys)).
      * assert (Hsame : bool_decide (k ∈ key :: keys) = bool_decide (k ∈ keys))
          by (apply bool_decide_ext; rewrite elem_of_cons; tauto).
        rewrite Hsame. destruct (bool_decide (k ∈ keys)); [reflexivity|].
        destruct (test key); [now rewrite lookup_delete_ne | reflexivity].
    + destruct (test key) eqn:Hkey; [|reflexivity].
      destruct (decide (k = key)) as [->|Hne]; [congruence | now rewrite lookup_delete_ne].
Qed.

Lemma elem_of_storage_keys (ls : gmap string StorageItem) k :
  k ∈ storage_keys ls <-> is_Some (ls !! k).
Proof.
  unfold storage_keys. rewrite list_elem_of_fmap. split.
  - intros [[k' x] [-> Hin]]. apply elem_of_map_to_list in Hin. eauto.
  - intros [x Hx]. exists (k, x). split; [reflexivity | now apply elem_of_map_to_list].
Qed.

Lemma lookup_remove_where test (ls : gmap string StorageItem) k :
  remove_where test ls !! k
  = if truthy (JStr k) && test k then None else ls !! k.
Proof.
  unfold remove_where.
  rewrite (lookup_remove_listed (fun key => truthy (JStr key) && test key)).
  destruct (truthy (JStr k) && test k); [|reflexivity].
  cbn [andb]. destruct (bool_decide (k ∈ reverse (storage_keys ls))) eqn:Hin; [reflexivity|].
  apply bool_decide_eq_false in Hin. rewrite elem_of_reverse, elem_of_storage_keys in Hin.
  destruct (ls !! k) eqn:Hlook; [|reflexivity].
  exfalso. apply Hin. eauto.
Qed.

Lemma generateKey_has_prefix endpoint params :
  String.prefix "api_cache_" (generateKey endpoint params) = true.
Proof. unfold generateKey. cbn. now destruct (strip_non_alnum _). Qed.

(** X1.  [invalidate] removes its key from both layers, so a read of
    that key afterwards is absent, and it changes what no other key
    reads.  The memory map holds each key once. *)
Theorem invalidate_removes_one_key :
  forall st endpoint params,
    NoDup (map_keys (memoryCache st)) ->
    (forall n1 n2,
        get endpoint params n1 n2 (invalidate endpoint params st)
        = (JNull, invalidate endpoint params st))
    /\ (forall endpoint' params' n1 n2,
        generateKey endpoint' params' <> generateKey endpoint params ->
        fst (get endpoint' params' n1 n2 (invalidate endpoint params st))
        = fst (get endpoint' params' n1 n2 st)).
Proof.
  intros st endpoint params Hnodup. split.
  - intros n1 n2. apply get_unset; unfold invalidate; cbn [memoryCache localStorage].
    + now apply map_get_delete_eq.
    + apply lookup_delete_eq.
  - intros endpoint' params' n1 n2 Hne. unfold get, invalidate.
    cbn [memoryCache localStorage].
    rewrite map_get_delete_ne by congruence.
    rewrite lookup_delete_ne by congruence.
    destruct (map_get (generateKey endpoint' params') (memoryCache st)) as [em|];
      [destruct (isValidEntry n1 em); [reflexivity|]|];
      destruct (localStorage st !! generateKey endpoint' params') as [[el|]|];
      try reflexivity; destruct (isValidEntry n2 el); reflexivity.
Qed.

Lemma invalidate_removes_one_key_witness :
  fst (get "/users/1" None 1 1 (invalidate "/users/1" None Sample.two_entries)) = JNull
  /\ fst (get "/users/2" None 2 2 (invalidate "/users/1" None Sample.two_entries)) = JNum 2.
Proof.
  assert (Hnodup : NoDup (map_keys (memoryCache Sample.two_entries)))
    by (apply (bool_decide_unpack _); vm_compute; exact I).
  destruct (invalidate_removes_one_key Sample.two_entries "/users/1" None Hnodup)
    as [Hgone Hkept].
  split.
  - now rewrite Hgone.
  - rewrite Hkept; [reflexivity | vm_compute; discriminate].
Defined.

(** X2.  [invalidatePattern] leaves in the memory layer exactly the
    bindings whose derived key does not contain the pattern, in their
    order, and in [localStorage] exactly the items whose key is empty
    or does not contain it, whoever wrote them; a read of a key that
    contains the pattern is absent afterwards. *)
Theorem invalidatePattern_removes_matching_keys :
  forall pattern st,
    memoryCache (invalidatePattern pattern st)
    = List.filter (fun b => negb (includes pattern (fst b))) (memoryCache st)
    /\ (forall k,
        localStorage (invalidatePattern pattern st) !! k
        = if negb (String.eqb k "") && includes pattern k then None
          else localStorage st !! k)
    /\ (forall endpoint params n1 n2,
        includes pattern (generateKey endpoint params) = true ->
        get endpoint params n1 n2 (invalidatePattern pattern st)
        = (JNull, invalidatePattern pattern st)).
Proof.
  intros pattern st.
  assert (Hmem : memoryCache (invalidatePattern pattern st)
                 = List.filter (fun b => negb (includes pattern (fst b))) (memoryCache st)).
  { unfold invalidatePattern. cbn [memoryCache].
    exact (delete_matching_keys (includes pattern) [] (memoryCache st) (Forall_nil_2 _)). }
  assert (Hls : forall k,
             localStorage (invalidatePattern pattern st) !! k
             = if negb (String.eqb k "") && includes pattern k then None
               else localStorage st !! k).
  { intros k. unfold invalidatePattern. cbn [localStorage]. apply lookup_remove_where. }
  split; [exact Hmem|]. split; [exact Hls|].
  intros endpoint params n1 n2 Hmatch. apply get_unset.
  - rewrite Hmem, (map_get_filter (fun k => negb (includes pattern k))). now rewrite Hmatch.
  - rewrite Hls, Hmatch.
    destruct (String.eqb_spec (generateKey endpoint params) "") as [Hempty|_]; [|reflexivity].
    now apply generateKey_nonempty in Hempty.
Qed.

Lemma invalidatePattern_removes_matching_keys_witness :
  includes "cache_L3VzZXJzLzE" (generateKey "/users/1" None) = true
  /\ fst (get "/users/1" None 1 1 (invalidatePattern "cache_L3VzZXJzLzE" Sample.two_entries))
     = JNull.
Proof.
  assert (Hmatch : includes "cache_L3VzZXJzLzE" (generateKey "/users/1" None) = true)
    by reflexivity.
  split; [exact Hmatch|].
  destruct (invalidatePattern_removes_matching_keys "cache_L3VzZXJzLzE" Sample.two_entries)
    as (_ & _ & Hgone).
  now rewrite (Hgone "/users/1" None 1 1 Hmatch).
Defined.

Lemma filter_none {A} (f : A -> bool) l :
  (forall x, In x l -> f x = false) -> List.filter f l = [].
Proof.
  induction l as [|x l IH]; [reflexivity|]. intros Hall. simpl.
  rewrite (Hall x) by now left. apply IH. intros y Hy. apply Hall. now right.
Qed.

(** X3.  After [clear] every read is absent, whatever the endpoint and
    the parameters, [getStats] reports zero for both layers, and every
    [localStorage] item whose key does not start with the reserved
    prefix is as it was. *)
Theorem clear_empties_the_store :
  forall st,
    (forall endpoint params n1 n2,
        get endpoint params n1 n2 (clear st) = (JNull, clear st))
    /\ getStats (clear st) = mkStats 0 0
    /\ (forall k,
        String.prefix "api_cache_" k = false ->
        localStorage (clear st) !! k = localStorage st !! k).
Proof.
  intros st.
  assert (Hls : forall k,
             localStorage (clear st) !! k
             = if truthy (JStr k) && String.prefix "api_cache_" k then None
               else localStorage st !! k).
  { intros k. unfold clear. cbn [localStorage]. apply lookup_remove_where. }
  split; [|split].
  - intros endpoint params n1 n2. apply get_unset; [reflexivity|].
    rewrite Hls, generateKey_has_prefix.
    pose proof (generateKey_nonempty endpoint params) as Hne. cbn [truthy].
    destruct (String.eqb_spec (generateKey endpoint params) ""); [contradiction | reflexivity].
  - unfold getStats. cbn [memoryCache clear]. f_equal.
    replace (List.filter
               (fun key => truthy (JStr key) && String.prefix "api_cache_" key)
               (storage_keys (localStorage (clear st)))) with (@nil string); [reflexivity|].
    symmetry. apply filter_none. intros k Hin.
    apply list_elem_of_In, elem_of_storage_keys in Hin as [x Hx].
    rewrite Hls in Hx.
    destruct (truthy (JStr k) && String.prefix "api_cache_" k); [discriminate | reflexivity].
  - intros k Hk. rewrite Hls, Hk. now rewrite andb_false_r.
Qed.

Lemma clear_empties_the_store_witness :
  String.prefix "api_cache_" "img_cache_aHR0cA" = false
  /\ localStorage
       (clear (mkState [] (<["img_cache_aHR0cA" := Unparsable]> (localStorage Sample.two_entries))))
       !! "img_cache_aHR0cA" = Some Unparsable.
Proof.
  assert (Hforeign : String.prefix "api_cache_" "img_cache_aHR0cA" = false) by reflexivity.
  split; [exact Hforeign|].
  destruct (clear_empties_the_store
              (mkState [] (<["img_cache_aHR0cA" := Unparsable]> (localStorage Sample.two_entries))))
    as (_ & _ & Hkept).
  rewrite (Hkept _ Hforeign). cbn [localStorage]. apply lookup_insert_eq.
Defined.

(** X4.  A read that the memory layer cannot serve and that finds a
    valid entry in [localStorage] returns its data and appends the entry
    to the memory map without any capacity check: the map grows by one,
    past [MAX_MEMORY_ITEMS] when it was full. *)
Theorem get_promotes_without_capacity_check :
  forall st endpoint params n1 n2 entry,
    map_get (generateKey endpoint params) (memoryCache st) = None ->
    localStorage st !! generateKey endpoint params = Some (EntryText entry) ->
    isValidEntry n2 entry = true ->
    get endpoint params n1 n2 st
    = (data entry,
       {| memoryCache := memoryCache st ++ [(generateKey endpoint params, entry)];
          localStorage := localStorage st |})
    /\ map_size (memoryCache (snd (get endpoint params n1 n2 st)))
       = map_size (memoryCache st) + 1
    /\ (MAX_MEMORY_ITEMS <= map_size (memoryCache st) ->
        MAX_MEMORY_ITEMS < map_size (memoryCache (snd (get endpoint params n1 n2 st)))).
Proof.
  intros st endpoint params n1 n2 entry Hmem Hls Hvalid.
  assert (Hget :
    get endpoint params n1 n2 st
    = (data entry,
       {| memoryCache := memoryCache st ++ [(generateKey endpoint params, entry)];
          localStorage := localStorage st |})).
  { unfold get. rewrite Hmem, Hls, Hvalid. now rewrite map_set_absent. }
  split; [exact Hget|]. rewrite Hget. cbn [snd memoryCache].
  unfold map_size. rewrite length_app. cbn [length]. split; lia.
Qed.

Lemma get_promotes_without_capacity_check_witness :
  map_size (memoryCache Sample.full_store) = 100
  /\ fst (get "/extra" None 5 5 Sample.full_store) = JStr "kept"
  /\ map_size (memoryCache (snd (get "/extra" None 5 5 Sample.full_store))) = 101.
Proof.
  assert (Hfull : map_size (memoryCache Sample.full_store) = 100)
    by (vm_compute; reflexivity).
  assert (Hmem : map_get (generateKey "/extra" None) (memoryCache Sample.full_store) = None)
    by (vm_compute; reflexivity).
  assert (Hls : localStorage Sample.full_store !! generateKey "/extra" None
                = Some (EntryText (mkEntry (JStr "kept") 0 1000)))
    by (unfold Sample.full_store; cbn [localStorage]; apply lookup_singleton_eq).
  assert (Hvalid : isValidEntry 5 (mkEntry (JStr "kept") 0 1000) = true) by reflexivity.
  destruct (get_promotes_without_capacity_check Sample.full_store "/extra" None 5 5 _
              Hmem Hls Hvalid) as (Hget & Hsize & _).
  split; [exact Hfull|]. split; [now rewrite Hget|]. rewrite Hsize, Hfull. reflexivity.
Defined.

(** X5.  What a page reload finds.  A value whose [set] reached
    [localStorage] is served to the new instance, as long as its
    lifetime has not elapsed, in the form JSON carries it
    ([undefined] members dropped, [undefined] array slots [null]); when
    the [set] did not reach [localStorage], the new instance reads what
    a reload before that [set] would have read. *)
Theorem reload_serves_persisted_value :
  forall st endpoint value params ttl t_mem t_ls accepts n1 n2,
    n2 - t_ls < default DEFAULT_TTL ttl ->
    fst (get endpoint params n1 n2
           (reload (set endpoint value params ttl t_mem t_ls accepts st)))
    = if persists value accepts then reparse value
      else fst (get endpoint params n1 n2 (reload st)).
Proof.
  intros st endpoint value params ttl t_mem t_ls accepts n1 n2 Hfresh.
  unfold get, reload. cbn [memoryCache localStorage map_get].
  rewrite set_localStorage.
  destruct (persists value accepts); [|reflexivity].
  rewrite lookup_insert_eq. unfold isValidEntry. cbn [timestamp APICache.ttl data].
  destruct (Z.ltb_spec (n2 - t_ls) (default DEFAULT_TTL ttl)); [reflexivity | lia].
Qed.

Lemma reload_serves_persisted_value_witness :
  fst (get "/users" None 9 9
         (reload (set "/users" (JArr [JNum 1; JUndefined]) None (Some 10) 0 0 true empty)))
  = JArr [JNum 1; JNull].
Proof.
  assert (Hfresh : 9 - 0 < default DEFAULT_TTL (Some 10)) by (cbn; lia).
  rewrite (reload_serves_persisted_value empty "/users" (JArr [JNum 1; JUndefined]) None
             (Some 10) 0 0 true 9 9 Hfresh).
  reflexivity.
Defined.

(** X6.  A [set] changes what another key reads only by evicting it:
    when the memory layer is not full, or the other key is not the
    oldest one, a read of the other key returns what it returned
    before. *)
Theorem set_leaves_other_keys :
  forall st endpoint value params ttl t_mem t_ls accepts endpoint' params' n1 n2,
    generateKey endpoint' params' <> generateKey endpoint params ->
    map_size (memoryCache st) < MAX_MEMORY_ITEMS
    \/ first_key (memoryCache st) <> Some (generateKey endpoint' params') ->
    fst (get endpoint' params' n1 n2 (set endpoint value params ttl t_mem t_ls accepts st))
    = fst (get endpoint' params' n1 n2 st).
Proof.
  intros st endpoint value params ttl t_mem t_ls accepts endpoint' params' n1 n2 Hne Hroom.
  assert (Hmem :
    map_get (generateKey endpoint' params')
      (memoryCache (set endpoint value params ttl t_mem t_ls accepts st))
    = map_get (generateKey endpoint' params') (memoryCache st)).
  { unfold set. cbn [memoryCache]. rewrite map_get_set_ne by congruence.
    destruct (Z.leb_spec MAX_MEMORY_ITEMS (map_size (memoryCache st))) as [Hfull|_];
      [|reflexivity].
    destruct Hroom as [Hlt|Hnot]; [lia|].
    destruct (first_key (memoryCache st)) as [oldest|]; [|reflexivity].
    destruct (truthy (JStr oldest)); [|reflexivity].
    apply map_get_delete_ne. congruence. }
  assert (Hls :
    localStorage (set endpoint value params ttl t_mem t_ls accepts st)
      !! generateKey endpoint' params'
    = localStorage st !! generateKey endpoint' params').
  { rewrite set_localStorage. destruct (persists value accepts); [|reflexivity].
    apply lookup_insert_ne. congruence. }
  unfold get. rewrite Hmem, Hls.
  destruct (map_get (generateKey endpoint' params') (memoryCache st)) as [em|];
    [destruct (isValidEntry n1 em); [reflexivity|]|];
    destruct (localStorage st !! generateKey endpoint' params') as [[el|]|];
    try reflexivity; destruct (isValidEntry n2 el); reflexivity.
Qed.

Lemma set_leaves_other_keys_witness :
  fst (get "/users/1" None 5 5
         (set "/users/9" (JStr "new") None None 3 3 true Sample.two_entries))
  = JNum 1.
Proof.
  assert (Hne : generateKey "/users/1" None <> generateKey "/users/9" None)
    by (vm_compute; discriminate).
  assert (Hroom : map_size (memoryCache Sample.two_entries) < MAX_MEMORY_ITEMS
                  \/ first_key (memoryCache Sample.two_entries)
                     <> Some (generateKey "/users/1" None))
    by (left; vm_compute; reflexivity).
  rewrite (set_leaves_other_keys Sample.two_entries "/users/9" (JStr "new") None None 3 3 true
             "/users/1" None 5 5 Hne Hroom).
  reflexivity.
Defined.
End CacheMaintenance.

(** * Further properties of the decorator *)

Section SharedEndpoint.
Import APICache Decorator.

(** X7.  The store is keyed by the endpoint name and the arguments, not
    by the wrapped operation: once one wrapped operation has stored a
    success, another operation wrapped under the same endpoint name and
    called with the same arguments before the lifetime has elapsed is
    answered with that stored result and is not invoked. *)
Theorem withCache_shares_entries_by_endpoint :
  forall (W1 W2 : Type)
         (first : list JSValue -> W1 -> Completion JSValue * W1)
         (second : list JSValue -> W2 -> Completion JSValue * W2)
         endpoint ttl1 ttl2 args clk1 clk2 st w1 w2 result w1',
    truthy (fst (get endpoint (params_of args) (get_now_mem clk1) (get_now_ls clk1) st))
    = false ->
    first args w1 = (Normal result, w1') ->
    is_success result = true ->
    get_now_mem clk2 - set_now_mem clk1 < default DEFAULT_TTL ttl1 ->
    outcome (withCache second endpoint ttl2 args clk2
               (cache (withCache first endpoint ttl1 args clk1 st w1)) w2)
    = Normal result
    /\ invoked (withCache second endpoint ttl2 args clk2
                  (cache (withCache first endpoint ttl1 args clk1 st w1)) w2)
       = []
    /\ world (withCache second endpoint ttl2 args clk2
                (cache (withCache first endpoint ttl1 args clk1 st w1)) w2)
       = w2.
Proof.
  intros W1 W2 first second endpoint ttl1 ttl2 args clk1 clk2 st w1 w2 result w1'
    Hmiss Hfn Hok Hfresh.
  rewrite (withCache_miss first endpoint ttl1 args clk1 st w1 _ _ Hmiss Hfn), Hok.
  cbn [cache].
  assert (Hget :
    get endpoint (params_of args) (get_now_mem clk2) (get_now_ls clk2)
      (set endpoint result (params_of args) ttl1
         (set_now_mem clk1) (set_now_ls clk1) (storage_accepts clk1)
         (snd (get endpoint (params_of args) (get_now_mem clk1) (get_now_ls clk1) st)))
    = (result,
       set endpoint result (params_of args) ttl1
         (set_now_mem clk1) (set_now_ls clk1) (storage_accepts clk1)
         (snd (get endpoint (params_of args) (get_now_mem clk1) (get_now_ls clk1) st))))
    by now apply get_after_set_shared_key.
  rewrite withCache_hit; rewrite Hget; cbn [fst snd outcome invoked world].
  - repeat split.
  - now apply is_success_truthy.
Qed.

Lemma withCache_shares_entries_by_endpoint_witness :
  let clk := mkClock 0 0 0 0 true in
  let stored := cache (withCache Sample.counting_fn "/users" None [JNum 1] clk empty 0%nat) in
  outcome (withCache Sample.failing_fn "/users" None [JNum 1] clk stored 7%nat)
  = Normal (JObj [("data", JArr [JNum 1]); ("success", JBool true)])
  /\ world (withCache Sample.failing_fn "/users" None [JNum 1] clk stored 7%nat) = 7%nat.
Proof.
  intros clk stored.
  assert (Hmiss :
    truthy (fst (get "/users" (params_of [JNum 1]) (get_now_mem clk) (get_now_ls clk) empty))
    = false) by reflexivity.
  assert (Hfn : Sample.counting_fn [JNum 1] 0%nat
                = (Normal (JObj [("data", JArr [JNum 1]); ("success", JBool true)]), 1%nat))
    by reflexivity.
  assert (Hok : is_success (JObj [("data", JArr [JNum 1]); ("success", JBool true)]) = true)
    by reflexivity.
  assert (Hfresh : get_now_mem clk - set_now_mem clk < default DEFAULT_TTL None)
    by (vm_compute; reflexivity).
  destruct (withCache_shares_entries_by_endpoint nat nat Sample.counting_fn Sample.failing_fn
              "/users" None None [JNum 1] clk clk empty 0%nat 7%nat _ _ Hmiss Hfn Hok Hfresh)
    as (Hout & _ & Hworld).
  split; [exact Hout | exact Hworld].
Defined.
End SharedEndpoint.

(** * Further properties of the REST boundary *)

Section ClientResults.
Import UserProfileAPI Server.

(** X8.  The client reports success exactly for a response with a 2xx
    status whose body is JSON, and then hands the parsed body on as the
    data, untouched, with the fixed message. *)
Theorem success_iff_2xx_with_json_body :
  forall (S : Type) (fetch : Request -> S -> FetchOutcome * S) req s,
    (success (fst (fetchWithErrorHandling fetch req s)) = true
     <-> exists response body,
           fst (fetch req s) = Settled response
           /\ ok response = true
           /\ json response = Normal body)
    /\ (forall response body,
          fst (fetch req s) = Settled response ->
          ok response = true ->
          json response = Normal body ->
          fst (fetchWithErrorHandling fetch req s)
          = mkApiResponse body true (JStr "Operation completed successfully")).
Proof.
  intros S fetch req s. unfold fetchWithErrorHandling.
  destruct (fetch req s) as [[m|response] s']; cbn [fst].
  - split; [split; [discriminate | intros (r & b & [=] & _)] | intros r b [=]].
  - destruct (json response) as [body|m] eqn:Hjson.
    + destruct (ok response) eqn:Hok; cbn [negb].
      * split.
        -- split; [intros _; eauto | reflexivity].
        -- intros r b [= <-] _. rewrite Hjson. now intros [= <-].
      * split.
        -- split.
           ++ destruct (get_prop body "error"); discriminate.
           ++ intros (r & b & [= <-] & Hok' & _). congruence.
        -- intros r b [= <-]. congruence.
    + split.
      * split; [discriminate | intros (r & b & [= <-] & _ & Hb); congruence].
      * intros r b [= <-] _. congruence.
Qed.

Lemma success_iff_2xx_with_json_body_witness :
  fst (fetchWithErrorHandling serve (mkRequest GET (api ["users"; "u1"]) [] None) [Sample.ada])
  = mkApiResponse (user_json Sample.ada) true (JStr "Operation completed successfully").
Proof.
  destruct (success_iff_2xx_with_json_body (list User) serve
              (mkRequest GET (api ["users"; "u1"]) [] None) [Sample.ada]) as [_ Hdata].
  apply (Hdata (mkResponse 200 (Normal (user_json Sample.ada)))); reflexivity.
Defined.

(** X9.  When [getUserById] answers with [null] and [User not found]:
    on a 404 whose JSON body has no truthy [error] member, and on any
    rejection of the request whose message contains the text [404],
    whatever went wrong. *)
Theorem getUserById_null_cases :
  forall (S : Type) (fetch : Request -> S -> FetchOutcome * S) id s s',
    (forall body e,
        fetch (mkRequest GET (api ["users"; id]) [] None) s
        = (Settled (mkResponse 404 (Normal body)), s') ->
        get_prop body "error" = Normal e ->
        truthy e = false ->
        getUserById fetch id s
        = (Normal (mkApiResponse JNull false (JStr "User not found")), s'))
    /\ (forall m,
          fetch (mkRequest GET (api ["users"; id]) [] None) s = (Rejected m, s') ->
          includes "404" m = true ->
          getUserById fetch id s
          = (Normal (mkApiResponse JNull false (JStr "User not found")), s')).
Proof.
  intros S fetch id s s'. split.
  - intros body e Hfetch Herror Hfalsy.
    unfold getUserById, fetchWithErrorHandling. rewrite Hfetch. cbn [json ok status].
    replace ((200 <=? 404) && (404 <=? 299)) with false by reflexivity. cbn [negb].
    rewrite Herror. unfold or_else. rewrite Hfalsy. reflexivity.
  - intros m Hfetch Hincl.
    unfold getUserById, fetchWithErrorHandling. rewrite Hfetch.
    cbn [failure success message message_includes]. now rewrite Hincl.
Qed.

Lemma getUserById_null_cases_witness :
  getUserById (fun _ (s : unit) => (Rejected "connect ECONNREFUSED 127.0.0.1:4040", s)) "u1" tt
  = (Normal (mkApiResponse JNull false (JStr "User not found")), tt)
  /\ getUserById (fun _ (s : unit) => (Settled (mkResponse 404 (Normal (JObj []))), s)) "u1" tt
     = (Normal (mkApiResponse JNull false (JStr "User not found")), tt).
Proof.
  split.
  - apply (proj2 (getUserById_null_cases unit
                    (fun _ (s : unit) => (Rejected "connect ECONNREFUSED 127.0.0.1:4040", s))
                    "u1" tt tt) "connect ECONNREFUSED 127.0.0.1:4040"); reflexivity.
  - apply (proj1 (getUserById_null_cases unit
                    (fun _ (s : unit) => (Settled (mkResponse 404 (Normal (JObj []))), s))
                    "u1" tt tt) (JObj []) JUndefined); reflexivity.
Defined.
End ClientResults.

Section ServerResponses.
Import UserProfileAPI Server.
Context {DB : Type} `{Prisma DB}.







(** X12.  A create or update request whose JSON object lacks a truthy
    [fullName] or a truthy [email] is answered 400 with the text [Full
    name and email are required], whatever its other members, and the
    database is left as it was. *)
Theorem writes_require_name_and_email :
  forall fields,
    truthy (default JUndefined (lookup_field "fullName" fields))
    && truthy (default JUndefined (lookup_field "email" fields)) = false ->
    (forall q (db : DB),
        app (mkRequest POST ["api"; "users"] q (Some (JObj fields))) db
        = (send 400 (error_body "Full name and email are required"), db))
    /\ (forall id q (db : DB),
          app (mkRequest PUT ["api"; "users"; id] q (Some (JObj fields))) db
          = (send 400 (error_body "Full name and email are required"), db)).
Proof.
  intros fields Hmissing.
  assert (Hreq :
    missing_required
      (mkInput (default JUndefined (lookup_field "fullName" fields))
         (default JUndefined (lookup_field "email" fields))
         (default JUndefined (lookup_field "phoneNumber" fields))
         (default JUndefined (lookup_field "bio" fields))
         (default JUndefined (lookup_field "avatarUrl" fields))
         (if truthy (default JUndefined (lookup_field "dateOfBirth" fields))
          then Some (default JUndefined (lookup_field "dateOfBirth" fields)) else None)
         (default JUndefined (lookup_field "location" fields))) = true).
  { unfold missing_required. cbn [in_fullName in_email].
    destruct (truthy (default JUndefined (lookup_field "fullName" fields)));
      destruct (truthy (default JUndefined (lookup_field "email" fields)));
      try reflexivity; discriminate. }
  split.
  - intros q db. unfold app, post_user, read_input. cbn [method path body].
    change (default JUndefined (Some (JObj fields))) with (JObj fields).
    cbn [get_prop bind]. now rewrite Hreq.
  - intros id q db. unfold app, put_user, read_input. cbn [method path body].
    change (default JUndefined (Some (JObj fields))) with (JObj fields).
    cbn [get_prop bind]. now rewrite Hreq.
Qed.
End ServerResponses.

Lemma writes_require_name_and_email_witness :
  Server.app
    (mkRequest POST ["api"; "users"] []
       (Some (JObj [("fullName", JStr "Ada Lovelace"); ("email", JStr "")])))
    [Sample.bob]
  = (Server.send 400 (Server.error_body "Full name and email are required"), [Sample.bob]).
Proof.
  assert (Hmissing :
    truthy (default JUndefined
              (lookup_field "fullName" [("fullName", JStr "Ada Lovelace"); ("email", JStr "")]))
    && truthy (default JUndefined
                 (lookup_field "email" [("fullName", JStr "Ada Lovelace"); ("email", JStr "")]))
    = false) by reflexivity.
  exact (proj1 (writes_require_name_and_email
                  [("fullName", JStr "Ada Lovelace"); ("email", JStr "")] Hmissing)
           [] [Sample.bob]).
Defined.

(** * Further properties of the coordinator and its handlers *)

Section Handlers.
Import UserProfileAPI App AppDialogs.

(** The recording transport does what the transport does and appends
    the request to the log. *)
Lemma fetchWithErrorHandling_recording {S} (fetch : Request -> S -> FetchOutcome * S)
    req s log :
  fetchWithErrorHandling (recording fetch) req (s, log)
  = (fst (fetchWithErrorHandling fetch req s),
     (snd (fetchWithErrorHandling fetch req s), log ++ [req])).
Proof.
  unfold fetchWithErrorHandling, recording. cbn [fst snd].
  destruct (fetch req s) as [[m|response] s']; [reflexivity|].
  destruct (json response) as [body|m]; [|reflexivity].
  destruct (negb (ok response)); [|reflexivity].
  destruct (get_prop body "error"); reflexivity.
Qed.

Lemma loadUsers_recording {S} (fetch : Request -> S -> FetchOutcome * S)
    page search now st s log :
  loadUsers (recording fetch) page search now st (s, log)
  = (fst (loadUsers fetch page search now st s),
     (snd (loadUsers fetch page search now st s), log ++ [list_request page search])).
Proof.
  unfold loadUsers, getAllUsers. rewrite fetchWithErrorHandling_recording.
  fold (list_request page search).
  now destruct (fetchWithErrorHandling fetch (list_request page search) s).
Qed.

(** X13.  A load against this server, whatever the database does,
    lowers the spinner; when the query of the table succeeds the answer
    is a bare array, so the list and the descriptor are both set to
    [undefined] and no notification is added; when it fails the list
    and the descriptor stay and one error notification is added. *)
Theorem load_against_server :
  forall (DB : Type) (P : Server.Prisma DB) page search now st (db : DB),
    isLoading (snd (fst (loadUsers Server.serve page search now st db))) = false
    /\ snd (loadUsers Server.serve page search now st db) = db
    /\ ((exists rows,
           Server.findMany db = Server.Done rows
           /\ shown (snd (fst (loadUsers Server.serve page search now st db)))
              = (JUndefined, JUndefined)
           /\ notifications (snd (fst (loadUsers Server.serve page search now st db)))
              = notifications st)
        \/ (exists code,
              Server.findMany db = Server.Failed code
              /\ shown (snd (fst (loadUsers Server.serve page search now st db))) = shown st
              /\ notifications (snd (fst (loadUsers Server.serve page search now st db)))
                 = notifications st
                   ++ [mkNotification (pretty now) "error" (JStr "Failed to load users")
                         None])).
Proof.
  intros DB P page search now st db.
  unfold loadUsers, getAllUsers, fetchWithErrorHandling, Server.serve, Server.app,
    Server.get_users.
  cbn [method path api].
  destruct (Server.findMany db) as [rows|code]; cbn.
  - split; [reflexivity|]. split; [reflexivity|]. left. eauto.
  - split; [reflexivity|]. split; [reflexivity|]. right. eauto.
Qed.

(** X14.  A notification's id is the clock value of its creation, so
    two notifications created in the same millisecond share an id and
    dismissing one dismisses both; created at different clock values,
    dismissing the first leaves the second. *)
Theorem removeNotification_by_clock_value :
  forall st type1 text1 now1 type2 text2 now2,
    notifications
      (removeNotification (pretty now1)
         (addNotification type2 text2 now2 (addNotification type1 text1 now1 st)))
    = notifications (removeNotification (pretty now1) st)
      ++ (if bool_decide (now1 = now2) then []
          else [mkNotification (pretty now2) type2 text2 None]).
Proof.
  intros st type1 text1 now1 type2 text2 now2.
  unfold removeNotification, addNotification. cbn [notifications].
  rewrite !List.filter_app. cbn [List.filter nid]. rewrite String.eqb_refl. cbn [negb].
  rewrite app_nil_r. f_equal.
  destruct (decide (now1 = now2)) as [->|Hne].
  - rewrite String.eqb_refl, bool_decide_eq_true_2 by reflexivity. reflexivity.
  - rewrite bool_decide_eq_false_2 by assumption.
    destruct (String.eqb_spec (pretty now2) (pretty now1)) as [Heq|_]; [|reflexivity].
    apply (inj pretty) in Heq. congruence.
Qed.

(** X15.  The requests [handleDeleteUser] sends: none when no profile
    is marked for deletion; otherwise the DELETE for its id, followed by
    the list request for the current page and the debounced search text
    exactly when the delete succeeded.  After a failed delete the
    marked profile, the modal, the list and the descriptor are as they
    were and the response's message is shown as one error
    notification. *)
Theorem handleDeleteUser_requests :
  forall (S : Type) (fetch : Request -> S -> FetchOutcome * S) now_delete now_load st s log,
    snd (snd (handleDeleteUser (recording fetch) now_delete now_load st (s, log)))
    = log ++ match userToDelete st with
             | None => []
             | Some target =>
                 mkRequest DELETE (api ["users"; Server.id target]) [] None
                 :: (if success (fst (deleteUser fetch (Server.id target) s))
                     then [list_request (currentPage st) (debouncedSearchQuery st)]
                     else [])
             end
    /\ (forall target,
          userToDelete st = Some target ->
          success (fst (deleteUser fetch (Server.id target) s)) = false ->
          snd (fst (handleDeleteUser fetch now_delete now_load st s))
          = addNotification "error" (message (fst (deleteUser fetch (Server.id target) s)))
              now_delete st).
Proof.
  intros S fetch now_delete now_load st s log. split.
  - unfold handleDeleteUser. destruct (userToDelete st) as [target|];
      [|cbn; now rewrite app_nil_r].
    unfold deleteUser. rewrite fetchWithErrorHandling_recording.
    destruct (fetchWithErrorHandling fetch
                (mkRequest DELETE (api ["users"; Server.id target]) [] None) s)
      as [response s1].
    cbn [fst snd success]. destruct (success response).
    + rewrite loadUsers_recording. cbn [snd]. now rewrite <- app_assoc.
    + reflexivity.
  - intros target Htarget Hfail. unfold handleDeleteUser. rewrite Htarget.
    destruct (deleteUser fetch (Server.id target) s) as [response s1].
    cbn [fst] in Hfail. now rewrite Hfail.
Qed.

Lemma handleDeleteUser_requests_witness :
  snd (fst (handleDeleteUser Server.serve 5 6
              (setUserToDelete (Some Sample.ada) initial) [Sample.bob]))
  = addNotification "error" (JStr "User not found") 5
      (setUserToDelete (Some Sample.ada) initial).
Proof.
  assert (Hfail :
    success (fst (deleteUser Server.serve (Server.id Sample.ada) [Sample.bob])) = false)
    by reflexivity.
  exact (proj2 (handleDeleteUser_requests (list Server.User) Server.serve 5 6
                  (setUserToDelete (Some Sample.ada) initial) [Sample.bob] [])
           Sample.ada eq_refl Hfail).
Defined.

(** X16.  The requests the form handlers send and the flags they leave.
    [handleCreateUser] sends the POST and, exactly when it succeeded,
    the list request for the current page; [handleUpdateUser] sends
    nothing without a profile under edit, else the PUT for its id and
    the list request on success.  Both lower the form's loading flag at
    the end; both close the form on success and leave it as it was on
    failure.  After a scan has been handed over, a submit is a create,
    whatever was under edit before. *)
Theorem form_handlers_requests :
  forall (S : Type) (fetch : Request -> S -> FetchOutcome * S)
         userData now_result now_load st d s log,
    (snd (handleCreateUser (recording fetch) userData now_result now_load st d (s, log))
     = (snd (handleCreateUser fetch userData now_result now_load st d s),
        log ++ mkRequest POST (api ["users"]) [] (Some (reparse userData))
               :: (if success (fst (createUser fetch userData s))
                   then [list_request (currentPage st) (debouncedSearchQuery st)]
                   else []))
     /\ isFormLoading
          (snd (fst (handleCreateUser fetch userData now_result now_load st d s))) = false
     /\ showForm (snd (fst (handleCreateUser fetch userData now_result now_load st d s)))
        = if success (fst (createUser fetch userData s)) then false else showForm d)
    /\ (snd (handleUpdateUser (recording fetch) userData now_result now_load st d (s, log))
        = (snd (handleUpdateUser fetch userData now_result now_load st d s),
           log ++ match editingUser d with
                  | None => []
                  | Some edited =>
                      mkRequest PUT (api ["users"; Server.id edited]) []
                        (Some (reparse userData))
                      :: (if success (fst (updateUser fetch (Server.id edited) userData s))
                          then [list_request (currentPage st) (debouncedSearchQuery st)]
                          else [])
                  end)
        /\ match editingUser d with
           | None =>
               handleUpdateUser fetch userData now_result now_load st d s
               = (Normal tt, st, d, s)
           | Some edited =>
               isFormLoading
                 (snd (fst (handleUpdateUser fetch userData now_result now_load st d s)))
               = false
               /\ showForm
                    (snd (fst (handleUpdateUser fetch userData now_result now_load st d s)))
                  = if success (fst (updateUser fetch (Server.id edited) userData s))
                    then false else showForm d
           end)
    /\ (forall scanned,
          handleSubmitForm fetch userData now_result now_load st
            (handleUserDataScanned scanned d) s
          = handleCreateUser fetch userData now_result now_load st
              (handleUserDataScanned scanned d) s).
Proof.
  intros S fetch userData now_result now_load st d s log.
  split; [|split; [|reflexivity]].
  - unfold handleCreateUser, createUser. rewrite fetchWithErrorHandling_recording.
    destruct (fetchWithErrorHandling fetch
                (mkRequest POST (api ["users"]) [] (Some (reparse userData))) s)
      as [response s1].
    cbn [fst snd]. destruct (success response).
    + rewrite loadUsers_recording.
      destruct (loadUsers fetch (currentPage st) (debouncedSearchQuery st) now_load
                  (addNotification "success" (JStr "User created successfully!") now_result st)
                  s1) as [[c st2] s2].
      cbn [fst snd]. rewrite <- app_assoc. repeat split.
    + repeat split.
  - unfold handleUpdateUser, updateUser. destruct (editingUser d) as [edited|].
    + rewrite fetchWithErrorHandling_recording.
      destruct (fetchWithErrorHandling fetch
                  (mkRequest PUT (api ["users"; Server.id edited]) []
                     (Some (reparse userData))) s)
        as [response s1].
      cbn [fst snd]. destruct (success response).
      * rewrite loadUsers_recording.
        destruct (loadUsers fetch (currentPage st) (debouncedSearchQuery st) now_load
                    (addNotification "success" (JStr "User updated successfully!") now_result
                       st) s1) as [[c st2] s2].
        cbn [fst snd]. rewrite <- app_assoc. repeat split.
      * repeat split.
    + cbn [snd]. rewrite app_nil_r. split; reflexivity.
Qed.
End Handlers.


(** * Further properties of the page controls *)

Section PageControls.
Import Pagination.

Lemma button_pages_app xs ys : button_pages (xs ++ ys) = button_pages xs ++ button_pages ys.
Proof.
  induction xs as [|c xs IH]; [reflexivity|].
  destruct c; cbn [app button_pages]; now rewrite IH.
Qed.

Lemma button_pages_numbers current pages :
  button_pages (map (fun page => PageButton page (page =? current)) pages) = pages.
Proof. induction pages as [|n pages IH]; [reflexivity|]. cbn. now rewrite IH. Qed.

(** The pages of the numbered buttons, for more than one page. *)
Lemma rendered_pages p :
  1 < totalPages p ->
  exists controls,
    renderPaginationControls p = Some controls
    /\ button_pages controls
       = (if 1 <? startPage p then [1] else [])
         ++ pageNumbers p
         ++ (if endPage p <? totalPages p then [totalPages p] else []).
Proof.
  intros Hmany. unfold renderPaginationControls.
  destruct (Z.leb_spec (totalPages p) 1); [lia|].
  eexists. split; [reflexivity|].
  rewrite !button_pages_app, button_pages_numbers. cbn [button_pages app].
  rewrite app_nil_r. f_equal.
  - destruct (1 <? startPage p); [|reflexivity]. now destruct (2 <? startPage p).
  - f_equal. destruct (endPage p <? totalPages p); [|reflexivity].
    now destruct (endPage p <? totalPages p - 1).
Qed.

(** X17.  For a current page within a result of more than one page, the
    numbered buttons of the controls are, without repetition, page 1,
    the last page, and the pages within two of the current one; at most
    five of them come from the window around the current page.  For a
    single page no controls are rendered. *)
Theorem page_buttons :
  forall p,
    1 <= currentPage p <= totalPages p ->
    (totalPages p <= 1 -> renderPaginationControls p = None)
    /\ (1 < totalPages p ->
        exists controls,
          renderPaginationControls p = Some controls
          /\ NoDup (button_pages controls)
          /\ (forall n,
                n ∈ button_pages controls
                <-> n = 1 \/ n = totalPages p
                    \/ (1 <= n <= totalPages p
                        /\ currentPage p - 2 <= n <= currentPage p + 2))
          /\ (length (pageNumbers p) <= 5)%nat).
Proof.
  intros p Hcur. split.
  - intros Hone. unfold renderPaginationControls.
    destruct (Z.leb_spec (totalPages p) 1); [reflexivity | lia].
  - intros Hmany. destruct (rendered_pages p Hmany) as (controls & Hrender & Hpages).
    exists controls. split; [exact Hrender|]. rewrite Hpages.
    unfold pageNumbers, startPage, endPage in *.
    assert (Hmember : forall n,
      n ∈ (if 1 <? Z.max 1 (currentPage p - 2) then [1] else [])
          ++ seqZ (Z.max 1 (currentPage p - 2))
               (Z.min (totalPages p) (currentPage p + 2) - Z.max 1 (currentPage p - 2) + 1)
          ++ (if Z.min (totalPages p) (currentPage p + 2) <? totalPages p
              then [totalPages p] else [])
      <-> n = 1 \/ n = totalPages p
          \/ (1 <= n <= totalPages p /\ currentPage p - 2 <= n <= currentPage p + 2)).
    { intros n. rewrite !elem_of_app, elem_of_seqZ.
      destruct (Z.ltb_spec 1 (Z.max 1 (currentPage p - 2)));
        destruct (Z.ltb_spec (Z.min (totalPages p) (currentPage p + 2)) (totalPages p));
        rewrite ?list_elem_of_singleton, ?elem_of_nil; lia. }
    split; [|split; [exact Hmember|]].
    + apply NoDup_app. split; [|split].
      * destruct (1 <? Z.max 1 (currentPage p - 2)); [apply NoDup_singleton | apply NoDup_nil_2].
      * intros n Hn. rewrite elem_of_app, elem_of_seqZ.
        destruct (Z.ltb_spec 1 (Z.max 1 (currentPage p - 2)));
          [|now apply elem_of_nil in Hn].
        apply list_elem_of_singleton in Hn. subst n.
        destruct (Z.ltb_spec (Z.min (totalPages p) (currentPage p + 2)) (totalPages p));
          rewrite ?list_elem_of_singleton, ?elem_of_nil; lia.
      * apply NoDup_app. split; [apply NoDup_seqZ|]. split.
        -- intros n Hn. apply elem_of_seqZ in Hn.
           destruct (Z.ltb_spec (Z.min (totalPages p) (currentPage p + 2)) (totalPages p));
             rewrite ?list_elem_of_singleton, ?elem_of_nil; lia.
        -- destruct (Z.min (totalPages p) (currentPage p + 2) <? totalPages p);
             [apply NoDup_singleton | apply NoDup_nil_2].
    + rewrite length_seqZ. lia.
Qed.

Lemma page_buttons_witness :
  exists controls,
    renderPaginationControls (mkPagination 5 9 170 20 true true) = Some controls
    /\ NoDup (button_pages controls)
    /\ (length (pageNumbers (mkPagination 5 9 170 20 true true)) <= 5)%nat.
Proof.
  assert (Hcur : 1 <= currentPage (mkPagination 5 9 170 20 true true)
                 <= totalPages (mkPagination 5 9 170 20 true true)) by (cbn; lia).
  assert (Hmany : 1 < totalPages (mkPagination 5 9 170 20 true true)) by (cbn; lia).
  destruct (proj2 (page_buttons (mkPagination 5 9 170 20 true true) Hcur) Hmany)
    as (controls & Hrender & Hnodup & _ & Hlen).
  exists controls. repeat split; assumption.
Defined.

(** X18.  The results summary of the list, for a non-empty result and a
    page number from 1 on: the upper number never exceeds the total, at
    most twenty profiles are announced whatever the page size of the
    descriptor, and the lower number is at most the upper one exactly
    when the page starts within the result. *)
Theorem summary_range :
  forall p,
    0 < totalUsers p ->
    1 <= currentPage p ->
    summary_to p <= totalUsers p
    /\ summary_to p - summary_from p + 1 <= 20
    /\ (summary_from p <= summary_to p <-> (currentPage p - 1) * 20 < totalUsers p).
Proof.
  intros p Htotal Hpage. unfold summary_from, summary_to.
  destruct (Z.ltb_spec 0 (totalUsers p)); lia.
Qed.

Lemma summary_range_witness :
  summary_from (mkPagination 2 2 25 20 false true) = 21
  /\ summary_to (mkPagination 2 2 25 20 false true) = 25
  /\ summary_from (mkPagination 2 2 25 20 false true)
     <= summary_to (mkPagination 2 2 25 20 false true).
Proof.
  assert (Htotal : 0 < totalUsers (mkPagination 2 2 25 20 false true)) by (cbn; lia).
  assert (Hpage : 1 <= currentPage (mkPagination 2 2 25 20 false true)) by (cbn; lia).
  destruct (summary_range (mkPagination 2 2 25 20 false true) Htotal Hpage) as (_ & _ & Hiff).
  split; [reflexivity|]. split; [reflexivity|]. apply Hiff. cbn. lia.
Defined.
End PageControls.

(** * Further properties of the QR codec *)

Section QRCodecMore.
Import QRCodec.

Lemma or_empty_text o : or_empty o = JStr (default "" o).
Proof.
  destruct o as [t|]; [|reflexivity]. unfold or_empty, or_else. cbn.
  destruct (String.eqb_spec t ""); [now subst | reflexivity].
Qed.

Lemma or_else_text t : or_else (JStr t) (JStr "") = JStr t.
Proof.
  unfold or_else. cbn. destruct (String.eqb_spec t ""); [now subst | reflexivity].
Qed.

Lemma before_T_has_no_T s : includes "T" (before_T s) = false.
Proof.
  induction s as [|c s IH]; [reflexivity|]. cbn [before_T].
  destruct (Ascii.eqb_spec c "T") as [->|Hne]; [reflexivity|].
  cbn [includes String.prefix]. rewrite IH.
  destruct (ascii_dec "T" c) as [Heq|_]; [congruence | reflexivity].
Qed.

(** X19.  Any profile with a full name and an email, encoded into the
    payload and decoded again, comes back accepted with its full name
    and email, with each optional text as it was (the empty string when
    absent) and with the date of birth cut before its first [T], so
    that the decoded date contains no [T]. *)
Theorem qr_round_trip_any_profile :
  forall user,
    Server.fullName user <> EmptyString ->
    Server.email user <> EmptyString ->
    handleScanResult (payload user) = Accepted (decoded user)
    /\ decoded user
       = mkForm (JStr (Server.fullName user)) (JStr (Server.email user))
           (JStr (default "" (Server.phoneNumber user)))
           (JStr (default "" (Server.bio user)))
           (JStr (default "" (Server.avatarUrl user)))
           (JStr (before_T (default "" (Server.dateOfBirth user))))
           (JStr (default "" (Server.location user)))
    /\ includes "T" (before_T (default "" (Server.dateOfBirth user))) = false.
Proof.
  intros user Hname Hemail.
  assert (Hdecoded :
    decoded user
    = mkForm (JStr (Server.fullName user)) (JStr (Server.email user))
        (JStr (default "" (Server.phoneNumber user)))
        (JStr (default "" (Server.bio user)))
        (JStr (default "" (Server.avatarUrl user)))
        (JStr (before_T (default "" (Server.dateOfBirth user))))
        (JStr (default "" (Server.location user)))).
  { unfold decoded. now rewrite !or_empty_text. }
  split; [|split; [exact Hdecoded | apply before_T_has_no_T]].
  rewrite Hdecoded. unfold payload, qrData. rewrite !or_empty_text.
  assert (Hdate :
    (if truthy (Server.nullable (Server.dateOfBirth user))
     then JStr (before_T (default "" (Server.dateOfBirth user)))
     else JStr "") = JStr (before_T (default "" (Server.dateOfBirth user)))).
  { destruct (Server.dateOfBirth user) as [t|]; [|reflexivity]. cbn.
    destruct (String.eqb_spec t ""); [now subst | reflexivity]. }
  rewrite Hdate.
  unfold handleScanResult, validate, field. cbn.
  rewrite !or_else_text, (truthy_text _ Hname), (truthy_text _ Hemail). reflexivity.
Qed.

Lemma qr_round_trip_any_profile_witness :
  handleScanResult (payload Sample.bob)
  = Accepted (mkForm (JStr "Bob Stone") (JStr "bob@example.org") (JStr "555-0100")
                (JStr "") (JStr "") (JStr "1990-05-17") (JStr "Oslo")).
Proof.
  assert (Hname : Server.fullName Sample.bob <> EmptyString) by discriminate.
  assert (Hemail : Server.email Sample.bob <> EmptyString) by discriminate.
  destruct (qr_round_trip_any_profile Sample.bob Hname Hemail) as (Hround & _ & _).
  rewrite Hround. reflexivity.
Defined.

(** X20.  What an accepted scan guarantees: the payload parsed, its tag
    is the text [user-profile], its data is truthy, the full name and
    the email of the form data are truthy, and every field of the form
    data is the payload's member when that is truthy and the empty
    string otherwise. *)
Theorem accepted_scan_is_valid :
  forall parsedData userData,
    handleScanResult parsedData = Accepted userData ->
    exists parsed d,
      parsedData = Normal parsed
      /\ get_prop parsed "type" = Normal (JStr "user-profile")
      /\ get_prop parsed "data" = Normal d
      /\ truthy d = true
      /\ truthy (fullName userData) = true
      /\ truthy (email userData) = true
      /\ field d "fullName" = Normal (fullName userData)
      /\ field d "email" = Normal (email userData)
      /\ field d "phoneNumber" = Normal (phoneNumber userData)
      /\ field d "bio" = Normal (bio userData)
      /\ field d "avatarUrl" = Normal (avatarUrl userData)
      /\ field d "dateOfBirth" = Normal (dateOfBirth userData)
      /\ field d "location" = Normal (location userData).
Proof.
  intros parsedData userData. unfold handleScanResult, validate.
  destruct parsedData as [parsed|m]; cbn [bind]; [|discriminate].
  destruct (get_prop parsed "type") as [tag|m] eqn:Htag; cbn [bind]; [|discriminate].
  destruct (is_string "user-profile" tag) eqn:Hprofile; cbn [negb]; [|discriminate].
  destruct (get_prop parsed "data") as [d|m] eqn:Hdata; cbn [bind]; [|discriminate].
  destruct (truthy d) eqn:Hd; cbn [negb]; [|discriminate].
  destruct (field d "fullName") as [f1|m] eqn:Hf1; cbn [bind]; [|discriminate].
  destruct (field d "email") as [f2|m] eqn:Hf2; cbn [bind]; [|discriminate].
  destruct (field d "phoneNumber") as [f3|m] eqn:Hf3; cbn [bind]; [|discriminate].
  destruct (field d "bio") as [f4|m] eqn:Hf4; cbn [bind]; [|discriminate].
  destruct (field d "avatarUrl") as [f5|m] eqn:Hf5; cbn [bind]; [|discriminate].
  destruct (field d "dateOfBirth") as [f6|m] eqn:Hf6; cbn [bind]; [|discriminate].
  destruct (field d "location") as [f7|m] eqn:Hf7; cbn [bind]; [|discriminate].
  destruct (truthy f1) eqn:H1; cbn [negb orb]; [|discriminate].
  destruct (truthy f2) eqn:H2; cbn [negb]; [|discriminate].
  intros [= <-]. exists parsed, d.
  assert (Htext : tag = JStr "user-profile").
  { destruct tag; try discriminate. cbn in Hprofile.
    apply String.eqb_eq in Hprofile. now subst. }
  subst tag. cbn [fullName email phoneNumber bio avatarUrl dateOfBirth location].
  repeat split; assumption || reflexivity.
Qed.

Lemma accepted_scan_is_valid_witness :
  exists parsed d,
    payload Sample.ada = Normal parsed
    /\ get_prop parsed "type" = Normal (JStr "user-profile")
    /\ get_prop parsed "data" = Normal d
    /\ truthy d = true.
Proof.
  assert (Haccepted : handleScanResult (payload Sample.ada) = Accepted (decoded Sample.ada))
    by reflexivity.
  destruct (accepted_scan_is_valid _ _ Haccepted)
    as (parsed & d & Hparsed & Htag & Hdata & Hd & _).
  exists parsed, d. repeat split; assumption.
Defined.

Lemma lower_char_spec c :
  is_space (lower_char c) = is_space c
  /\ is_capital (lower_char c) = false
  /\ (is_capital c = false -> lower_char c = c).
Proof.
  destruct c as [[] [] [] [] [] [] [] []]; vm_compute; repeat split; discriminate.
Qed.

Lemma all_chars_toLowerCase s :
  all_chars (fun c => negb (is_space c)) s = true ->
  all_chars (fun c => negb (is_space c) && negb (is_capital c)) (toLowerCase s) = true.
Proof.
  induction s as [|c s IH]; [reflexivity|]. cbn [all_chars toLowerCase].
  intros [Hc Hs]%andb_prop. destruct (lower_char_spec c) as (Hspace & Hcap & _).
  rewrite Hspace, Hcap, Hc. cbn. now apply IH.
Qed.

Lemma replace_space_runs_no_space s :
  all_chars (fun c => negb (is_space c)) (replace_space_runs s) = true.
Proof.
  induction s as [|c s IH]; [reflexivity|]. cbn [replace_space_runs].
  destruct (is_space c) eqn:Hc.
  - destruct s as [|next s']; [reflexivity|].
    destruct (is_space next); [exact IH|]. cbn [all_chars]. now rewrite IH.
  - cbn [all_chars]. now rewrite Hc, IH.
Qed.

Lemma replace_space_runs_id s :
  all_chars (fun c => negb (is_space c)) s = true -> replace_space_runs s = s.
Proof.
  induction s as [|c s IH]; [reflexivity|]. cbn [all_chars replace_space_runs].
  intros [Hc Hs]%andb_prop. apply negb_true_iff in Hc. rewrite Hc. now rewrite IH.
Qed.

Lemma toLowerCase_id s :
  all_chars (fun c => negb (is_capital c)) s = true -> toLowerCase s = s.
Proof.
  induction s as [|c s IH]; [reflexivity|]. cbn [all_chars toLowerCase].
  intros [Hc Hs]%andb_prop. apply negb_true_iff in Hc.
  destruct (lower_char_spec c) as (_ & _ & Hid). now rewrite (Hid Hc), IH.
Qed.

Lemma all_chars_app test s t :
  all_chars test (s +:+ t) = all_chars test s && all_chars test t.
Proof.
  induction s as [|c s IH]; [reflexivity|].
  change (String c s +:+ t) with (String c (s +:+ t)). cbn [all_chars].
  now rewrite IH, andb_assoc.
Qed.

Lemma all_chars_and f g s :
  all_chars (fun c => f c && g c) s = all_chars f s && all_chars g s.
Proof.
  induction s as [|c s IH]; [reflexivity|]. cbn [all_chars]. rewrite IH.
  destruct (f c), (g c), (all_chars f s), (all_chars g s); reflexivity.
Qed.

(** X21.  The file name under which a QR image is downloaded contains
    no white space and no capital letter, whatever the full name; a
    full name that has neither is carried into the file name as it
    is. *)
Theorem download_name_is_normalised :
  forall user,
    all_chars (fun c => negb (is_space c) && negb (is_capital c)) (download_name user) = true
    /\ (all_chars (fun c => negb (is_space c) && negb (is_capital c)) (Server.fullName user)
        = true ->
        download_name user = "qr-code-" +:+ Server.fullName user +:+ ".png").
Proof.
  intros user. unfold download_name. split.
  - rewrite !all_chars_app.
    rewrite (all_chars_toLowerCase _ (replace_space_runs_no_space _)). reflexivity.
  - rewrite all_chars_and. intros [Hspace Hcap]%andb_prop.
    now rewrite (replace_space_runs_id _ Hspace), (toLowerCase_id _ Hcap).
Qed.

Lemma download_name_is_normalised_witness :
  download_name
    (Server.mkUser "u3" "ada-lovelace" "ada@example.org" None None None None None "" "")
  = "qr-code-ada-lovelace.png".
Proof.
  apply (proj2 (download_name_is_normalised
                  (Server.mkUser "u3" "ada-lovelace" "ada@example.org"
                     None None None None None "" ""))).
  reflexivity.
Defined.
End QRCodecMore.
